(** * Cross-region SSO demo: the token-trust broker and its client

    A shallow embedding of [us-api/server.js] (key lookup, issuer
    allow-list, authentication middleware, CORS gate) and of the session
    code of [eu-app/src/App.tsx] (silent-auth bootstrap, brokered
    redirect, refresh-before-call).

    Callbacks that are invoked exactly once on every path are written in
    direct style; what the code does to the outside world (key-set
    lookups, console output, redirects, HTTP calls) is recorded in an
    event trace, so that "no lookup happened" is a statement about data. *)

From Stdlib Require Import String Ascii List ZArith Bool Lia.
Import ListNotations.
Local Open Scope string_scope.
Local Open Scope Z_scope.

(** ** JavaScript values and string primitives used by the program

    A character stands for one UTF-16 code unit below 256, so a string
    is a text of the Latin-1 range; on ASCII text code units, bytes and
    characters coincide. *)
Module Js.

(** Truthiness of a string: only the empty string is falsy. *)
Definition truthy (s : string) : bool :=
  match s with
  | EmptyString => false
  | String _ _ => true
  end.

(** Truthiness of a possibly-undefined string ([!x] is its negation). *)
Definition truthy_opt (o : option string) : bool :=
  match o with
  | None => false
  | Some s => truthy s
  end.

(** [a || b] on strings where [a] may be undefined. *)
Definition or_default (a : option string) (b : string) : string :=
  match a with
  | Some s => if truthy s then s else b
  | None => b
  end.

(** [s.startsWith(p)]. *)
Definition startsWith (s p : string) : bool := String.prefix p s.

(** [s.split(sep)] for a one-character separator. *)
Fixpoint split (sep : ascii) (s : string) : list string :=
  match s with
  | EmptyString => [EmptyString]
  | String c s' =>
      if Ascii.eqb c sep then EmptyString :: split sep s'
      else match split sep s' with
           | [] => [String c EmptyString]
           | w :: ws => String c w :: ws
           end
  end.

(** [xs.includes(x)], equally [xs.indexOf(x) !== -1]: strict equality
    with one of the elements. *)
Definition includes (xs : list string) (x : string) : bool :=
  existsb (String.eqb x) xs.

(** An array of strings coerced to a string: [xs.join(",")]. *)
Definition toString (xs : list string) : string := String.concat "," xs.

(** [s.includes(sub)]: [sub] occurs somewhere in [s]. *)
Fixpoint contains (s sub : string) : bool :=
  String.prefix sub s ||
  match s with
  | EmptyString => false
  | String _ s' => contains s' sub
  end.

(** White space as [trim] and the regular expression class [\s] see it:
    of the code units below 256 these are tab, line feed, vertical tab,
    form feed, carriage return, space and the no-break space U+00A0. *)
Definition is_space (c : ascii) : bool :=
  let n := nat_of_ascii c in
  (Nat.eqb n 32 || Nat.eqb n 9 || Nat.eqb n 10 || Nat.eqb n 11
   || Nat.eqb n 12 || Nat.eqb n 13 || Nat.eqb n 160)%bool.

(** Text of ASCII characters only. *)
Fixpoint isAscii (s : string) : bool :=
  match s with
  | EmptyString => true
  | String c s' => Nat.ltb (nat_of_ascii c) 128 && isAscii s'
  end.

(** [s.trim() === ""]: nothing but white space. *)
Fixpoint blank (s : string) : bool :=
  match s with
  | EmptyString => true
  | String c s' => is_space c && blank s'
  end.

(** A template-literal hole filled with a possibly-undefined string. *)
Definition show (o : option string) : string :=
  match o with
  | Some s => s
  | None => "undefined"
  end.

End Js.

(** ** An event trace for effects *)

(** A computation that returns a value and says what it did, in order. *)
Definition Trace (E A : Type) : Type := list E * A.

Definition ret {E A} (a : A) : Trace E A := ([], a).

Definition bind {E A B} (m : Trace E A) (k : A -> Trace E B) : Trace E B :=
  let (t1, a) := m in
  let (t2, b) := k a in
  ((t1 ++ t2)%list, b).

Definition emit {E} (e : E) : Trace E unit := ([e], tt).

Definition trace {E A} (m : Trace E A) : list E := fst m.
Definition result {E A} (m : Trace E A) : A := snd m.

Declare Scope trace_scope.
Delimit Scope trace_scope with trace.
Notation "x <- m ;; k" := (bind m (fun x => k))
  (at level 61, m at next level, right associativity) : trace_scope.
Notation "m ;;; k" := (bind m (fun _ => k))
  (at level 61, right associativity) : trace_scope.
Local Open Scope trace_scope.

(** ** [us-api/server.js] *)
Module Server.

(** Which of the two JWKS clients is addressed. *)
Inductive Client := LocalJwks | CrossJwks.

(** What the code of [server.js] does besides answering. What Express
    prints on its own account when a middleware gives up is not part of
    it. *)
Inductive Event :=
| GetSigningKey (c : Client) (kid : option string)
| JwtVerify (token : option string)
| ConsoleError (msg : string).

Definition M : Type -> Type := Trace Event.

(** *** Configuration (lines 8-28) *)
Record Config := {
  KEYCLOAK_URL : string;
  KEYCLOAK_EXTERNAL_URL : string;
  REALM : string;
  CORS_ORIGIN : string;
  REGION : string;
  CROSS_KEYCLOAK_URL : string;
  CROSS_KEYCLOAK_EXTERNAL_URL : string;
  CROSS_REALM : string;
  CROSS_CORS_ORIGIN : string
}.

(** [process.env.X || "default"] for every setting. *)
Definition fromEnv (env : string -> option string) : Config := {|
  KEYCLOAK_URL := Js.or_default (env "KEYCLOAK_URL") "http://localhost:8080";
  KEYCLOAK_EXTERNAL_URL :=
    Js.or_default (env "KEYCLOAK_EXTERNAL_URL") "http://localhost:8080";
  REALM := Js.or_default (env "KEYCLOAK_REALM") "us-realm";
  CORS_ORIGIN := Js.or_default (env "CORS_ORIGIN") "http://localhost:3000";
  REGION := Js.or_default (env "REGION") "US";
  CROSS_KEYCLOAK_URL :=
    Js.or_default (env "CROSS_KEYCLOAK_URL") "http://localhost:8081";
  CROSS_KEYCLOAK_EXTERNAL_URL :=
    Js.or_default (env "CROSS_KEYCLOAK_EXTERNAL_URL") "http://localhost:8081";
  CROSS_REALM := Js.or_default (env "CROSS_KEYCLOAK_REALM") "eu-realm";
  CROSS_CORS_ORIGIN :=
    Js.or_default (env "CROSS_CORS_ORIGIN") "http://localhost:3001"
|}.

(** The configuration of a process started with an empty environment. *)
Definition defaultConfig : Config := fromEnv (fun _ => None).

(** [`${base}/realms/${realm}`] *)
Definition issuerOf (base realm : string) : string :=
  base ++ "/realms/" ++ realm.

(** *** Accepted issuers (lines 81-86) *)
Definition ACCEPTED_ISSUERS (cfg : Config) : list string :=
  [ issuerOf (KEYCLOAK_URL cfg) (REALM cfg);
    issuerOf (KEYCLOAK_EXTERNAL_URL cfg) (REALM cfg);
    issuerOf (CROSS_KEYCLOAK_URL cfg) (CROSS_REALM cfg);
    issuerOf (CROSS_KEYCLOAK_EXTERNAL_URL cfg) (CROSS_REALM cfg) ].

(** *** CORS (lines 91-105) *)
Definition allowedOrigins (cfg : Config) : list string :=
  [CORS_ORIGIN cfg; CROSS_CORS_ORIGIN cfg].

(** The [origin] callback handed to [cors]: [inr true] is
    [cb(null, true)], [inl msg] is [cb(new Error(msg))]. *)
Definition corsOrigin (cfg : Config) (origin : option string)
  : string + bool :=
  if negb (Js.truthy_opt origin)
     || Js.includes (allowedOrigins cfg) (Js.show origin)
  then inr true
  else inl ("CORS: origin " ++ Js.show origin ++ " not allowed").

(** *** Tokens, as the verifier sees them once decoded *)

(** A numeric claim: missing, a number (seconds since the epoch), or a
    JSON value of another type. *)
Inductive NumClaim := Absent | Num (n : Z) | NotANumber.

Record Header := {
  alg : option string;
  kid : option string
}.

(** [iss] is [None] when the claim is missing or is not a string: both
    are strictly unequal to every string of an allow-list. *)
Record Payload := {
  iss : option string;
  exp : NumClaim;
  nbf : NumClaim;
  preferred_username : option string
}.

Inductive DecodeResult :=
| DecodeThrows (msg : string)
| DecodeNull
| Decoded (h : Header) (p : Payload).

(** A key as a JWKS client hands it out. *)
Record SigningKey (K : Type) := {
  sk_kid : string;
  getPublicKey : K
}.
Arguments sk_kid {K} _.
Arguments getPublicKey {K} _.

(** [client.getSigningKey(kid, cb)]: [inl msg] is [cb(err)], [inr key]
    is [cb(null, key)]. *)
Definition Resolver (K : Type) : Type :=
  option string -> string + SigningKey K.

Record VerifyOptions := {
  algorithms : list string;
  issuer : list string
}.

Record Body := {
  error : string;
  detail : option string
}.

Inductive AuthResult :=
| Respond (status : Z) (body : Body)
| Next (user : Payload).

(** *** Requests and what becomes of them *)
Inductive Method := GET | HEAD | POST | OPTIONS | OtherMethod.

(** [path] is the path of the request URL, without the query.
    [bodyError] is what [express.json()] makes of the request: [None]
    when it hands the request on (no body, a body of another content
    type, or well-formed JSON), [Some msg] when it gives up on the body
    with [next(err)]. *)
Record Request := {
  method : Method;
  path : string;
  origin : option string;
  authorization : option string;
  bodyError : option string
}.

Inductive Outcome :=
| MiddlewareError (msg : string)
| Preflight
| Denied (status : Z) (body : Body)
| Health
| Userinfo (user : Payload)
| Data (user : Payload)
| NoRoute.

(** *** Route paths

    Express compiles a route path with neither "case sensitive routing"
    nor "strict routing" switched on: [/api/data] becomes
    [/^\/api\/data\/?$/i], which is tried on the path of the request
    URL (the part before any [?]). Letters are compared without regard
    to case, and one trailing slash is let through. *)
Definition lowerChar (c : ascii) : ascii :=
  let n := nat_of_ascii c in
  if (Nat.leb 65 n && Nat.leb n 90)%bool then ascii_of_nat (n + 32) else c.

Fixpoint lower (s : string) : string :=
  match s with
  | EmptyString => EmptyString
  | String c s' => String (lowerChar c) (lower s')
  end.

Definition matchesRoute (route path : string) : bool :=
  ((lower path =? lower route)%string
   || (lower path =? lower route ++ "/")%string)%bool.

Section Gate.
(** Key material is opaque to the program: it is only ever passed
    from a resolver to the signature primitive. *)
Context {K : Type}.
Variable cfg : Config.
(** The two [jwks-rsa] clients (lines 33-46). *)
Variables localJwks crossJwks : Resolver K.
(** The library's token decoder (base64url and JSON). *)
Variable decode : string -> DecodeResult.
(** The library's signature primitive together with its guards on the
    key (a JWKS client hands out public keys): it throws ([inl msg]) or
    answers. *)
Variable jws_verify : string -> string -> K -> string + bool.
(** [Math.floor(Date.now() / 1000)] at the time of the call. *)
Variable clockTimestamp : Z.

Definition client (c : Client) : Resolver K :=
  match c with
  | LocalJwks => localJwks
  | CrossJwks => crossJwks
  end.

Definition getSigningKey (c : Client) (k : option string)
  : M (string + SigningKey K) :=
  emit (GetSigningKey c k) ;;; ret (client c k).

(** *** [getKey] (lines 54-71) *)
Definition getKey (header : Header) : M (string + K) :=
  r <- getSigningKey LocalJwks (kid header) ;;
  match r with
  | inr key => ret (inr (getPublicKey key))
  | inl _ =>
      r' <- getSigningKey CrossJwks (kid header) ;;
      match r' with
      | inl crossErr =>
          emit (ConsoleError
                  ("Signing key not found in either JWKS endpoint: "
                   ++ crossErr)) ;;;
          ret (inl crossErr)
      | inr crossKey => ret (inr (getPublicKey crossKey))
      end
  end.

(** *** [jwt.verify(token, getKey, options, cb)]

    The [jsonwebtoken] package is a dependency of the program; this
    is its [verify] for the two options the program passes
    ([algorithms] and [issuer]), in the order the package runs its
    checks: shape, decoding, key callback, signature presence,
    algorithm, signature, [nbf], [exp], issuer. [inl msg] is
    [cb(err)] with [err.message = msg]. *)
Definition nbfError (payload : Payload) : option string :=
  match nbf payload with
  | Absent => None
  | NotANumber => Some "invalid nbf value"
  | Num n => if n >? clockTimestamp then Some "jwt not active" else None
  end.

Definition expError (payload : Payload) : option string :=
  match exp payload with
  | Absent => None
  | NotANumber => Some "invalid exp value"
  | Num e => if clockTimestamp >=? e then Some "jwt expired" else None
  end.

(** [options.issuer.indexOf(payload.iss) === -1] *)
Definition invalid_issuer (options : VerifyOptions) (payload : Payload)
  : bool :=
  match iss payload with
  | Some i => negb (Js.includes (issuer options) i)
  | None => true
  end.

Definition issuerError (options : VerifyOptions) (payload : Payload)
  : option string :=
  if invalid_issuer options payload
  then Some ("jwt issuer invalid. expected: "
             ++ Js.toString (issuer options))
  else None.

(** The first failing check decides. *)
Definition orElse {A} (e : option string) (k : string + A) : string + A :=
  match e with
  | Some msg => inl msg
  | None => k
  end.

Definition checkClaims (options : VerifyOptions) (payload : Payload)
  : string + Payload :=
  orElse (nbfError payload)
    (orElse (expError payload)
       (orElse (issuerError options payload)
          (inr payload))).

(** What follows the key callback, up to and including the signature:
    [None] when the token is signed, under a listed algorithm, by the
    key at hand. *)
Definition signatureError (options : VerifyOptions) (jwtString : string)
           (header : Header) (key : K) : option string :=
  if Js.blank (nth 2 (Js.split "." jwtString) "")
  then Some "jwt signature is required"
  else
    match alg header with
    | None => Some "invalid algorithm"
    | Some a =>
        if negb (Js.includes (algorithms options) a)
        then Some "invalid algorithm"
        else
          match jws_verify jwtString a key with
          | inl thrown => Some thrown
          | inr false => Some "invalid signature"
          | inr true => None
          end
    end.

Definition verifyWithKey (options : VerifyOptions) (jwtString : string)
           (header : Header) (payload : Payload) (key : K)
  : string + Payload :=
  orElse (signatureError options jwtString header key)
    (checkClaims options payload).

Definition verify (token : option string)
           (getSecret : Header -> M (string + K))
           (options : VerifyOptions) : M (string + Payload) :=
  if negb (Js.truthy_opt token) then ret (inl "jwt must be provided")
  else
    let jwtString := Js.show token in
    if negb (Nat.eqb (length (Js.split "." jwtString)) 3)
    then ret (inl "jwt malformed")
    else
      match decode jwtString with
      | DecodeThrows msg => ret (inl msg)
      | DecodeNull => ret (inl "invalid token")
      | Decoded header payload =>
          r <- getSecret header ;;
          match r with
          | inl msg =>
              ret (inl ("error in secret or public key callback: "
                        ++ msg))
          | inr key =>
              ret (verifyWithKey options jwtString header payload key)
          end
      end.

(** *** [authenticate] (lines 110-139) *)
Definition missingCredential : Body :=
  {| error := "Missing or invalid Authorization header";
     detail := None |}.

Definition invalidToken (message : string) : Body :=
  {| error := "Invalid token"; detail := Some message |}.

Definition verifyOptions : VerifyOptions :=
  {| algorithms := ["RS256"]; issuer := ACCEPTED_ISSUERS cfg |}.

(** The test of line 112, read positively: a header is there and it
    begins with the bearer scheme. *)
Definition credentialSupplied (authHeader : option string) : bool :=
  Js.truthy_opt authHeader
  && Js.startsWith (Js.show authHeader) "Bearer ".

(** [authHeader.split(" ")[1]] *)
Definition bearerToken (authHeader : option string) : option string :=
  nth_error (Js.split " " (Js.show authHeader)) 1.

Definition authenticate (authHeader : option string) : M AuthResult :=
  if negb (Js.truthy_opt authHeader)
     || negb (Js.startsWith (Js.show authHeader) "Bearer ")
  then ret (Respond 401 missingCredential)
  else
    let token := bearerToken authHeader in
    emit (JwtVerify token) ;;;
    r <- verify token getKey verifyOptions ;;
    match r with
    | inl message =>
        emit (ConsoleError ("Token verification failed: " ++ message)) ;;;
        ret (Respond 401 (invalidToken message))
    | inr decoded => ret (Next decoded)
    end.

(** A credential that is presented as a bearer token, has three parts,
    decodes, finds its key and carries that key's signature under the
    pinned algorithm: what is left to check are its claims. *)
Definition signedCredential (authHeader : option string)
           (jwtString : string) (header : Header)
           (payload : Payload) (key : K) : Prop :=
  Js.startsWith (Js.show authHeader) "Bearer " = true
  /\ Js.truthy_opt authHeader = true
  /\ bearerToken authHeader = Some jwtString
  /\ length (Js.split "." jwtString) = 3%nat
  /\ decode jwtString = Decoded header payload
  /\ result (getKey header) = inr key
  /\ signatureError verifyOptions jwtString header key = None.

(** *** The middleware chain and the routes (lines 93-208) *)
Definition protected (req : Request) (handler : Payload -> Outcome)
  : M Outcome :=
  r <- authenticate (authorization req) ;;
  match r with
  | Respond status body => ret (Denied status body)
  | Next user => ret (handler user)
  end.

(** The three routes (lines 144-208); Express serves [HEAD] from the
    [GET] routes. *)
Definition routeTable (req : Request) : M Outcome :=
  match method req with
  | GET | HEAD =>
      if matchesRoute "/api/health" (path req) then ret Health
      else if matchesRoute "/api/userinfo" (path req)
           then protected req Userinfo
      else if matchesRoute "/api/data" (path req) then protected req Data
      else ret NoRoute
  | _ => ret NoRoute
  end.

(** What follows the CORS gate: [express.json()] (line 107), which ends
    the request with [next(err)] when it cannot read the body, and then
    the routes. *)
Definition routes (req : Request) : M Outcome :=
  match bodyError req with
  | Some msg => ret (MiddlewareError msg)
  | None => routeTable req
  end.

(** [cors] runs first: a refused origin ends the request with
    [next(err)], an [OPTIONS] request is answered by [cors] itself,
    anything else goes on to the body parser and the routes. *)
Definition app (req : Request) : M Outcome :=
  match corsOrigin cfg (origin req) with
  | inl msg => ret (MiddlewareError msg)
  | inr _ =>
      match method req with
      | OPTIONS => ret Preflight
      | _ => routes req
      end
  end.
End Gate.

(** *** A resolver over a fixed key set

    What a JWKS client answers once its endpoint has been read: the
    fetch error if there was one; an error for a set without signing
    keys; for a requested [kid] the first key that carries it; without
    a [kid] the key of a one-key set, and an error for a larger set. *)
Definition keySetResolver {K : Type} (keys : string + list (SigningKey K))
  : Resolver K :=
  fun requested =>
    match keys with
    | inl fetchError => inl fetchError
    | inr [] => inl "The JWKS endpoint did not contain any signing keys"
    | inr ks =>
        match requested with
        | Some k =>
            match find (fun sk => (sk_kid sk =? k)%string) ks with
            | Some sk => inr sk
            | None =>
                inl ("Unable to find a signing key that matches '"
                     ++ k ++ "'")
            end
        | None =>
            match ks with
            | [sk] => inr sk
            | _ =>
                inl "No KID specified and JWKS endpoint returned more than 1 key"
            end
        end
    end.

(** A resolver keeps to its contract when the key it answers with is
    the one that was asked for. *)
Definition answersTheKid {K : Type} (r : Resolver K) : Prop :=
  forall k sk, r (Some k) = inr sk -> sk_kid sk = k.

(** Re-encoding the key material a resolver hands out. *)
Definition mapKey {K1 K2 : Type} (f : K1 -> K2) (sk : SigningKey K1)
  : SigningKey K2 :=
  {| sk_kid := sk_kid sk; getPublicKey := f (getPublicKey sk) |}.

Definition mapResolver {K1 K2 : Type} (f : K1 -> K2) (r : Resolver K1)
  : Resolver K2 :=
  fun requested =>
    match r requested with
    | inl e => inl e
    | inr sk => inr (mapKey f sk)
    end.

End Server.

(** ** [eu-app/src/App.tsx] *)
Module EuApp.

(** *** Region configuration (lines 5-14) *)
Definition REGION : string := "EU".
Definition OTHER_REGION : string := "US".
Definition OTHER_APP_URL : string := "http://localhost:3000".
Definition API_URL : string := "http://localhost:4001".
Definition OTHER_API_URL : string := "http://localhost:4000".
Definition CROSS_IDP_HINT : string := "eu-keycloak-idp".

(** *** [URLSearchParams]

    The query as a list of name/value pairs in URL order, for a query
    that needs no decoding: [URLSearchParams] reads [%XX] as the escaped
    byte and [+] as a space, and leaves every other character as it
    is. [plainQuery] tells such a query; what is stated about
    [parseSearch] is stated for plain queries. *)
Definition URLSearchParams : Type := list (string * string).

Fixpoint plainQuery (search : string) : bool :=
  match search with
  | EmptyString => true
  | String c s' =>
      negb (Ascii.eqb c "%"%char) && negb (Ascii.eqb c "+"%char)
      && plainQuery s'
  end.

(** One [name=value] segment, cut at its first [=]. *)
Fixpoint cutAtEquals (s : string) : string * string :=
  match s with
  | EmptyString => (EmptyString, EmptyString)
  | String c s' =>
      if Ascii.eqb c "="%char then (EmptyString, s')
      else let (n, v) := cutAtEquals s' in (String c n, v)
  end.

Definition stripQuestionMark (s : string) : string :=
  match s with
  | String c s' => if Ascii.eqb c "?"%char then s' else s
  | EmptyString => s
  end.

(** [new URLSearchParams(search)], for a plain [search]. *)
Definition parseSearch (search : string) : URLSearchParams :=
  map cutAtEquals
      (filter Js.truthy (Js.split "&" (stripQuestionMark search))).

(** [params.get(name)]: the first value given for [name], or [null]. *)
Fixpoint get (params : URLSearchParams) (name : string) : option string :=
  match params with
  | [] => None
  | (n, v) :: rest => if (n =? name)%string then Some v else get rest name
  end.

(** *** The [keycloak-js] adapter, as far as the program drives it *)
Record Keycloak := {
  token : option string;
  tokenParsed_exp : option Z;
  refreshToken : option string;
  timeSkew : option Z;
  kc_authenticated : bool
}.

Record LoginOptions := {
  idpHint : option string;
  loginHint : option string
}.

(** What the client does to the outside world. *)
Inductive Event :=
| KeycloakInit
| KeycloakLogin (options : option LoginOptions)
| KeycloakLogout
| RefreshRequest (refresh_token : string)
| Fetch (url : string) (authorizationHeader : string)
| ConsoleError (msg : string).

Definition M : Type -> Type := Trace Event.

(** How [keycloak.init({onLoad: "check-sso", ...})] settles. *)
Inductive InitOutcome :=
| InitResolved (auth : bool)
| InitRejected (err : string).

(** How a refresh request ends: with new tokens, [exp] being the expiry
    of the new access token and [skew] the clock offset the adapter
    works out on arrival (the local time half-way between request and
    answer, in whole seconds, less the [iat] of the new token); or with
    a failure. *)
Inductive RefreshResponse :=
| Refreshed (access_token : string) (exp skew : Z) (refresh_token : string)
| RefreshStatus (status : Z) (rejection : string).

(** *** [App] (lines 22-107) *)
Record AppState := {
  authenticated : bool;
  initialized : bool;
  initCalled : bool
}.

(** A freshly loaded page. *)
Definition pageLoad : AppState :=
  {| authenticated := false; initialized := false; initCalled := false |}.

(** The mount effect (lines 27-55), with [search] standing for
    [window.location.search] and [outcome] for the way [init] settles. *)
Definition useEffect (search : string) (outcome : InitOutcome)
           (st : AppState) : M AppState :=
  if initCalled st then ret st
  else
    emit KeycloakInit ;;;
    match outcome with
    | InitResolved auth =>
        let st' := {| authenticated := auth;
                      initialized := true;
                      initCalled := true |} in
        if negb auth then
          let idpHint := get (parseSearch search) "idp_hint" in
          if Js.truthy_opt idpHint then
            emit (KeycloakLogin
                    (Some {| idpHint := idpHint; loginHint := None |})) ;;;
            ret st'
          else ret st'
        else ret st'
    | InitRejected err =>
        emit (ConsoleError ("Keycloak init error: " ++ err)) ;;;
        ret {| authenticated := authenticated st;
               initialized := true;
               initCalled := true |}
    end.

(** [handleLogin] (lines 62-64) *)
Definition handleLogin (hint : option string) : M unit :=
  emit (KeycloakLogin
          (if Js.truthy_opt hint
           then Some {| idpHint := None; loginHint := hint |}
           else None)).

(** [handleLogout] (lines 66-68) *)
Definition handleLogout : M unit := emit KeycloakLogout.

(** What the page renders (lines 70-106). *)
Inductive View := Loading | Dashboard | LandingPage.

Definition render (st : AppState) : View :=
  if negb (initialized st) then Loading
  else if authenticated st then Dashboard else LandingPage.

(** *** [keycloak.updateToken(minValidity)]

    The adapter is a dependency of the program; this is its
    [updateToken] with [now] standing for the adapter's clock in
    seconds, rounded up, at the time of the expiry test, and [response]
    for the way the refresh ends should one be sent (with, for a
    failure, the value the adapter rejects with).
    [inl v] is a rejected promise, [v] being the rejection value as
    [String(v)] prints it; [inr refreshed] is a fulfilled one. *)
Definition isTokenExpired (kc : Keycloak) (now minValidity : Z) : bool :=
  match timeSkew kc, tokenParsed_exp kc with
  | None, _ => true
  | Some skew, Some exp => exp - now + skew - minValidity <? 0
  | Some _, None => true
  end.

Definition setToken (access : string) (exp skew : Z) (refresh : string)
  : Keycloak :=
  {| token := Some access;
     tokenParsed_exp := Some exp;
     refreshToken := Some refresh;
     timeSkew := Some skew;
     kc_authenticated := true |}.

Definition clearToken (kc : Keycloak) : Keycloak :=
  if Js.truthy_opt (token kc) then
    {| token := None;
       tokenParsed_exp := None;
       refreshToken := None;
       timeSkew := timeSkew kc;
       kc_authenticated := false |}
  else kc.

Definition updateToken (minValidity now : Z) (response : RefreshResponse)
           (kc : Keycloak) : M (Keycloak * (string + bool)) :=
  match refreshToken kc with
  | None => ret (kc, inl "undefined")
  | Some rt =>
      if negb (Js.truthy rt) then ret (kc, inl "undefined")
      else
        let minValidity := if minValidity =? 0 then 5 else minValidity in
        if (minValidity =? -1)
           || match tokenParsed_exp kc with
              | None => true
              | Some _ => isTokenExpired kc now minValidity
              end
        then
          emit (RefreshRequest rt) ;;;
          match response with
          | Refreshed access exp skew refresh =>
              ret (setToken access exp skew refresh, inr true)
          | RefreshStatus status rejection =>
              ret (if status =? 400 then clearToken kc else kc,
                   inl rejection)
          end
        else ret (kc, inr false)
  end.

(** *** [ApiDemo] and [CrossRegionApiDemo] (lines 321-450) *)

(** How a [fetch] and the reading of its body settle: the request fails,
    or a response arrives whose body either is JSON (given as
    [JSON.stringify(json, null, 2)] prints it) or is not (given as the
    parser's complaint). *)
Inductive FetchResult :=
| NetworkError (msg : string)
| Response (ok : bool) (status : Z) (json : string + string).

(** What a result pane is set to: nothing, the printed JSON of a
    response, the printed object [{ status, ...errBody }] of line 433,
    or [`Error: ${msg}`]. *)
Inductive Shown :=
| Blank
| ShowJson (text : string)
| ShowStatus (status : Z) (errBody : option string)
| ShowError (msg : string).

Inductive ApiKey := userinfo | data.

Definition endpointOf (key : ApiKey) : string :=
  match key with
  | userinfo => "userinfo"
  | data => "data"
  end.

Record Panes := {
  userInfoResult : Shown;
  dataResult : Shown;
  loading_userinfo : bool;
  loading_data : bool
}.

Definition setLoading (key : ApiKey) (b : bool) (p : Panes) : Panes :=
  match key with
  | userinfo => {| userInfoResult := userInfoResult p;
                   dataResult := dataResult p;
                   loading_userinfo := b;
                   loading_data := loading_data p |}
  | data => {| userInfoResult := userInfoResult p;
               dataResult := dataResult p;
               loading_userinfo := loading_userinfo p;
               loading_data := b |}
  end.

Definition setter (key : ApiKey) (v : Shown) (p : Panes) : Panes :=
  match key with
  | userinfo => {| userInfoResult := v;
                   dataResult := dataResult p;
                   loading_userinfo := loading_userinfo p;
                   loading_data := loading_data p |}
  | data => {| userInfoResult := userInfoResult p;
               dataResult := v;
               loading_userinfo := loading_userinfo p;
               loading_data := loading_data p |}
  end.

Definition shownBy (key : ApiKey) (p : Panes) : Shown :=
  match key with
  | userinfo => userInfoResult p
  | data => dataResult p
  end.

(** Everything the browser tab holds. *)
Record Client := {
  app : AppState;
  keycloak : Keycloak;
  apiDemo : Panes;
  crossApiDemo : Panes
}.

Definition bearer (kc : Keycloak) : string := "Bearer " ++ Js.show (token kc).

(** [callApi] (lines 329-348) *)
Definition callApi (key : ApiKey) (now : Z) (response : RefreshResponse)
           (fetched : FetchResult) (c : Client) : M Client :=
  let panes := setter key Blank (setLoading key true (apiDemo c)) in
  r <- updateToken 30 now response (keycloak c) ;;
  let (kc, settled) := r in
  shown <-
    match settled with
    | inl err => ret (ShowError err)
    | inr _ =>
        emit (Fetch (API_URL ++ "/api/" ++ endpointOf key) (bearer kc)) ;;;
        match fetched with
        | NetworkError msg => ret (ShowError msg)
        | Response _ _ (inl msg) => ret (ShowError msg)
        | Response _ _ (inr text) => ret (ShowJson text)
        end
    end ;;
  ret {| app := app c;
         keycloak := kc;
         apiDemo := setLoading key false (setter key shown panes);
         crossApiDemo := crossApiDemo c |}.

(** [callCrossApi] (lines 412-450) *)
Definition callCrossApi (key : ApiKey) (now : Z) (response : RefreshResponse)
           (fetched : FetchResult) (c : Client) : M Client :=
  let panes := setter key Blank (setLoading key true (crossApiDemo c)) in
  r <- updateToken 30 now response (keycloak c) ;;
  let (kc, settled) := r in
  shown <-
    match settled with
    | inl err => ret (ShowError err)
    | inr _ =>
        emit (Fetch (OTHER_API_URL ++ "/api/" ++ endpointOf key)
                    (bearer kc)) ;;;
        match fetched with
        | NetworkError msg => ret (ShowError msg)
        | Response false status (inl _) => ret (ShowStatus status None)
        | Response false status (inr text) =>
            ret (ShowStatus status (Some text))
        | Response true _ (inl msg) => ret (ShowError msg)
        | Response true _ (inr text) => ret (ShowJson text)
        end
    end ;;
  ret {| app := app c;
         keycloak := kc;
         apiDemo := apiDemo c;
         crossApiDemo := setLoading key false (setter key shown panes) |}.

(** The operations of the page that send the token. *)
Inductive Operation := LocalCall | CrossCall.

Definition perform (op : Operation) : ApiKey -> Z -> RefreshResponse ->
                                      FetchResult -> Client -> M Client :=
  match op with
  | LocalCall => callApi
  | CrossCall => callCrossApi
  end.

Definition panesOf (op : Operation) (c : Client) : Panes :=
  match op with
  | LocalCall => apiDemo c
  | CrossCall => crossApiDemo c
  end.

Definition baseOf (op : Operation) : string :=
  match op with
  | LocalCall => API_URL
  | CrossCall => OTHER_API_URL
  end.

Definition isFetch (e : Event) : bool :=
  match e with
  | Fetch _ _ => true
  | _ => false
  end.

Definition isRefresh (e : Event) : bool :=
  match e with
  | RefreshRequest _ => true
  | _ => false
  end.

(** The link of [CrossRegionBanner] (line 264). *)
Definition crossRegionLink : string :=
  OTHER_APP_URL ++ "?idp_hint=" ++ CROSS_IDP_HINT.

End EuApp.

(** ** A small deployment to run the program on

    Two regions with one key each, a clock, and a handful of tokens. The
    signature part of a token names the key that signed it. *)
Module Fixture.
Import Server.

Definition usKey : SigningKey string :=
  {| sk_kid := "us-1"; getPublicKey := "US-PEM" |}.
Definition euKey : SigningKey string :=
  {| sk_kid := "eu-1"; getPublicKey := "EU-PEM" |}.

Definition localJwks : Resolver string := keySetResolver (inr [usKey]).
Definition crossJwks : Resolver string := keySetResolver (inr [euKey]).

Definition rs256 (k : string) : Header :=
  {| alg := Some "RS256"; kid := Some k |}.

Definition claims (issuer : string) (expiry : Z) : Payload :=
  {| iss := Some issuer;
     exp := Num expiry;
     nbf := Absent;
     preferred_username := Some "alice" |}.

(** Claims with a "not before" time as well. *)
Definition claimsFrom (issuer : string) (notBefore expiry : Z) : Payload :=
  {| iss := Some issuer;
     exp := Num expiry;
     nbf := Num notBefore;
     preferred_username := Some "alice" |}.

Definition usIssuer : string := "http://localhost:8080/realms/us-realm".
Definition euIssuer : string := "http://localhost:8081/realms/eu-realm".
Definition evilIssuer : string := "https://evil.example/realms/us-realm".

(** The clock reads 1000. *)
Definition clock : Z := 1000.

Definition tokens : list (string * (Header * Payload)) :=
  [ ("us.fresh.US-PEM", (rs256 "us-1", claims usIssuer 2000));
    ("eu.fresh.EU-PEM", (rs256 "eu-1", claims euIssuer 2000));
    ("us.stale.US-PEM", (rs256 "us-1", claims usIssuer 999));
    ("evil.fresh.US-PEM", (rs256 "us-1", claims evilIssuer 2000));
    ("evil.stale.US-PEM", (rs256 "us-1", claims evilIssuer 999));
    ("hs.fresh.US-PEM",
     ({| alg := Some "HS256"; kid := Some "us-1" |}, claims usIssuer 2000));
    ("none.fresh.",
     ({| alg := Some "none"; kid := Some "us-1" |}, claims usIssuer 2000));
    ("zz.fresh.ZZ-PEM", (rs256 "zz-9", claims usIssuer 2000));
    ("us.early.US-PEM", (rs256 "us-1", claimsFrom usIssuer 1001 999));
    ("us.stale.EU-PEM", (rs256 "us-1", claims usIssuer 999));
    ("zz.stale.ZZ-PEM", (rs256 "zz-9", claims usIssuer 999)) ].

Fixpoint lookup (table : list (string * (Header * Payload))) (s : string)
  : DecodeResult :=
  match table with
  | [] => DecodeNull
  | (t, (h, p)) :: rest =>
      if (t =? s)%string then Decoded h p else lookup rest s
  end.

Definition decode : string -> DecodeResult := lookup tokens.

Definition jws_verify (jwtString algorithm key : string) : string + bool :=
  inr (nth 2 (Js.split "." jwtString) "" =? key)%string.

(** A signed-in browser tab whose token runs out at 1010. *)
Definition noPanes : EuApp.Panes :=
  {| EuApp.userInfoResult := EuApp.Blank;
     EuApp.dataResult := EuApp.Blank;
     EuApp.loading_userinfo := false;
     EuApp.loading_data := false |}.

Definition signedIn : EuApp.Client :=
  {| EuApp.app := {| EuApp.authenticated := true;
                     EuApp.initialized := true;
                     EuApp.initCalled := true |};
     EuApp.keycloak := {| EuApp.token := Some "old-token";
                          EuApp.tokenParsed_exp := Some 1010;
                          EuApp.refreshToken := Some "refresh-1";
                          EuApp.timeSkew := Some 0;
                          EuApp.kc_authenticated := true |};
     EuApp.apiDemo := noPanes;
     EuApp.crossApiDemo := noPanes |}.

Definition authenticate : option string -> M AuthResult :=
  Server.authenticate defaultConfig localJwks crossJwks decode jws_verify
                      clock.

Definition app : Request -> M Outcome :=
  Server.app defaultConfig localJwks crossJwks decode jws_verify clock.

Definition get (p : string) (o a : option string) : Request :=
  {| method := GET; path := p; origin := o; authorization := a;
     bodyError := None |}.

End Fixture.

(** ** More JavaScript string primitives *)
Module JsText.

(** [s.trimStart()] *)
Fixpoint trimStart (s : string) : string :=
  match s with
  | EmptyString => EmptyString
  | String c s' => if Js.is_space c then trimStart s' else s
  end.

(** [s.trimEnd()]: what is blank from some point to the end is cut. *)
Fixpoint trimEnd (s : string) : string :=
  match s with
  | EmptyString => EmptyString
  | String c s' => if Js.blank s then EmptyString else String c (trimEnd s')
  end.

(** [s.trim()] *)
Definition trim (s : string) : string := trimEnd (trimStart s).

(** [s.indexOf(sep)] as an option: [None] is [-1]. *)
Fixpoint indexOf (sep s : string) : option nat :=
  if String.prefix sep s then Some 0%nat
  else match s with
       | EmptyString => None
       | String _ s' => option_map S (indexOf sep s')
       end.

(** [s.slice(n)] *)
Fixpoint drop (n : nat) (s : string) : string :=
  match n, s with
  | O, _ => s
  | S n', String _ s' => drop n' s'
  | S _, EmptyString => EmptyString
  end.

(** [s.split(sep)] for a separator of one character or more. Every cut
    uses up at least one character, so [length s] rounds are enough. *)
Fixpoint splitOn_rounds (rounds : nat) (sep s : string) : list string :=
  match rounds with
  | O => [s]
  | S rounds' =>
      match indexOf sep s with
      | None => [s]
      | Some i =>
          String.substring 0 i s
          :: splitOn_rounds rounds' sep (drop (i + String.length sep) s)
      end
  end.

Definition splitOn (sep s : string) : list string :=
  splitOn_rounds (String.length s) sep s.

End JsText.

(** ** Regular expressions, as far as the program writes them

    An anchored pattern [/^r$/] over character classes; [test] decides
    it by derivatives, [Matches] says what it means. *)
Module RegExp.

Inductive re :=
| Never
| Empty
| Class (p : ascii -> bool)
| Seq (r s : re)
| Alt (r s : re)
| Star (r : re).

(** [r+] *)
Definition Plus (r : re) : re := Seq r (Star r).

Inductive Matches : re -> string -> Prop :=
| MEmpty : Matches Empty EmptyString
| MClass p c : p c = true -> Matches (Class p) (String c EmptyString)
| MSeq r s u v : Matches r u -> Matches s v -> Matches (Seq r s) (u ++ v)
| MAltL r s u : Matches r u -> Matches (Alt r s) u
| MAltR r s u : Matches s u -> Matches (Alt r s) u
| MStarNil r : Matches (Star r) EmptyString
| MStarCons r u v :
    Matches r u -> Matches (Star r) v -> Matches (Star r) (u ++ v).

Fixpoint nullable (r : re) : bool :=
  match r with
  | Never => false
  | Empty => true
  | Class _ => false
  | Seq r s => nullable r && nullable s
  | Alt r s => nullable r || nullable s
  | Star _ => true
  end.

Fixpoint deriv (c : ascii) (r : re) : re :=
  match r with
  | Never => Never
  | Empty => Never
  | Class p => if p c then Empty else Never
  | Seq r s =>
      if nullable r then Alt (Seq (deriv c r) s) (deriv c s)
      else Seq (deriv c r) s
  | Alt r s => Alt (deriv c r) (deriv c s)
  | Star r => Seq (deriv c r) (Star r)
  end.

(** [/^r$/.test(s)] *)
Fixpoint test (r : re) (s : string) : bool :=
  match s with
  | EmptyString => nullable r
  | String c s' => test (deriv c r) s'
  end.

End RegExp.

(** ** [us-api/server.js] and [App.tsx]: what is shown of a token *)
Module Profile.

(** [iss?.split("/realms/")[1]] ([server.js] line 165, [App.tsx]
    line 287) *)
Definition realmOf (iss : option string) : option string :=
  match iss with
  | None => None
  | Some i => nth_error (JsText.splitOn "/realms/" i) 1
  end.

(** The other way round: the issuers of a configuration come apart at
    the [/realms/] that [issuerOf] puts in, and the realm names hold
    none. *)
Definition issuerSplitsAt (base realm : string) : bool :=
  match JsText.indexOf "/realms/" (Server.issuerOf base realm),
        JsText.indexOf "/realms/" realm with
  | Some i, None => Nat.eqb i (String.length base)
  | _, _ => false
  end.

Definition plainIssuers (cfg : Server.Config) : bool :=
  issuerSplitsAt (Server.KEYCLOAK_URL cfg) (Server.REALM cfg)
  && issuerSplitsAt (Server.KEYCLOAK_EXTERNAL_URL cfg) (Server.REALM cfg)
  && issuerSplitsAt (Server.CROSS_KEYCLOAK_URL cfg) (Server.CROSS_REALM cfg)
  && issuerSplitsAt (Server.CROSS_KEYCLOAK_EXTERNAL_URL cfg)
                    (Server.CROSS_REALM cfg).

(** [name || `${given_name || ""} ${family_name || ""}`.trim()]
    ([server.js] lines 161-163; [App.tsx] line 285 writes [??] for the
    inner [||], which is the same on strings). *)
Definition fullName (name given_name family_name : option string)
  : string :=
  if Js.truthy_opt name then Js.show name
  else JsText.trim (Js.or_default given_name "" ++ " "
                    ++ Js.or_default family_name "").

End Profile.

(** ** [App.tsx]: the landing page (lines 150-250) *)
Module Landing.

(** [[^\s@]] *)
Definition notSpaceOrAt (c : ascii) : bool :=
  negb (Js.is_space c) && negb (Ascii.eqb c "@"%char).

Definition isChar (d c : ascii) : bool := Ascii.eqb c d.

(** [/^[^\s@]+@[^\s@]+\.[^\s@]+$/] *)
Definition emailPattern : RegExp.re :=
  RegExp.Seq (RegExp.Plus (RegExp.Class notSpaceOrAt))
    (RegExp.Seq (RegExp.Class (isChar "@"%char))
       (RegExp.Seq (RegExp.Plus (RegExp.Class notSpaceOrAt))
          (RegExp.Seq (RegExp.Class (isChar "."%char))
             (RegExp.Plus (RegExp.Class notSpaceOrAt))))).

Record State := {
  email : string;
  error : string
}.

(** [handleSubmit] (lines 155-172) *)
Definition handleSubmit (st : State) : EuApp.M State :=
  let trimmed := JsText.trim (email st) in
  if negb (Js.truthy trimmed) then
    ret {| email := email st;
           error := "Please enter your email address." |}
  else if negb (RegExp.test emailPattern trimmed) then
    ret {| email := email st;
           error := "Please enter a valid email address." |}
  else
    EuApp.handleLogin (Some trimmed) ;;;
    ret {| email := email st; error := "" |}.

(** The input's [onChange] (lines 200-203) *)
Definition onChange (value : string) (st : State) : State :=
  {| email := value;
     error := if Js.truthy (error st) then "" else error st |}.

(** A part of an address: one character or more, none of them white
    space or [@]. *)
Definition addressPart (s : string) : Prop :=
  s <> "" /\ forall c, In c (list_ascii_of_string s) -> notSpaceOrAt c = true.

End Landing.

(** ** Reading traces and texts *)
Module Observe.

Definition isLookup (e : Server.Event) : bool :=
  match e with
  | Server.GetSigningKey _ _ => true
  | _ => false
  end.

Definition isIdentityWork (e : Server.Event) : bool :=
  match e with
  | Server.JwtVerify _ | Server.GetSigningKey _ _ => true
  | Server.ConsoleError _ => false
  end.

Definition isConsoleError (e : Server.Event) : bool :=
  match e with
  | Server.ConsoleError _ => true
  | _ => false
  end.

(** The character [c] does not occur in [s]. *)
Fixpoint lacks (c : ascii) (s : string) : bool :=
  match s with
  | EmptyString => true
  | String d s' => negb (Ascii.eqb d c) && lacks c s'
  end.

(** Setting a variable to the empty string. *)
Definition blanked (env : string -> option string) (name : string)
  : string -> option string :=
  fun k => if (k =? name)%string then Some "" else env k.

(** Leaving a variable out. *)
Definition unset (env : string -> option string) (name : string)
  : string -> option string :=
  fun k => if (k =? name)%string then None else env k.

(** A query value that needs no decoding and ends at no [&]. *)
Definition plainValue (s : string) : bool :=
  lacks "&"%char s && lacks "+"%char s && lacks "%"%char s.

Definition otherKey (key : EuApp.ApiKey) : EuApp.ApiKey :=
  match key with
  | EuApp.userinfo => EuApp.data
  | EuApp.data => EuApp.userinfo
  end.

Definition otherOperation (op : EuApp.Operation) : EuApp.Operation :=
  match op with
  | EuApp.LocalCall => EuApp.CrossCall
  | EuApp.CrossCall => EuApp.LocalCall
  end.

Definition loadingOf (key : EuApp.ApiKey) (p : EuApp.Panes) : bool :=
  match key with
  | EuApp.userinfo => EuApp.loading_userinfo p
  | EuApp.data => EuApp.loading_data p
  end.

End Observe.

(** * Properties of the server *)

Lemma result_bind {E A B} (m : Trace E A) (k : A -> Trace E B) :
  result (bind m k) = result (k (result m)).
Proof.
  destruct m as [t a]; unfold bind, result; simpl.
  destruct (k a); reflexivity.
Qed.

Lemma trace_bind {E A B} (m : Trace E A) (k : A -> Trace E B) :
  trace (bind m k) = (trace m ++ trace (k (result m)))%list.
Proof.
  destruct m as [t a]; unfold bind, trace, result; simpl.
  destruct (k a); reflexivity.
Qed.

Lemma includes_In (xs : list string) (x : string) :
  Js.includes xs x = true <-> In x xs.
Proof.
  unfold Js.includes. rewrite existsb_exists. split.
  - intros [y [Hy Heq]]. apply String.eqb_eq in Heq. subst. exact Hy.
  - intros H. exists x. split; [exact H | apply String.eqb_refl].
Qed.

Lemma includes_false_not_In (xs : list string) (x : string) :
  Js.includes xs x = false <-> ~ In x xs.
Proof.
  rewrite <- includes_In. destruct (Js.includes xs x); split; intros H.
  - discriminate.
  - exfalso; apply H; reflexivity.
  - intros H'; discriminate.
  - reflexivity.
Qed.

Section GateFacts.
Context {K : Type}.
Variable cfg : Server.Config.
Variables localJwks crossJwks : Server.Resolver K.
Variable decode : string -> Server.DecodeResult.
Variable jws_verify : string -> string -> K -> string + bool.
Variable clockTimestamp : Z.

Local Abbreviation getKey := (Server.getKey localJwks crossJwks).
Local Abbreviation verify := (Server.verify decode jws_verify clockTimestamp).
Local Abbreviation signatureError := (Server.signatureError jws_verify).
Local Abbreviation checkClaims := (Server.checkClaims clockTimestamp).
Local Abbreviation authenticate :=
  (Server.authenticate cfg localJwks crossJwks decode jws_verify
                       clockTimestamp).
Local Abbreviation options := (Server.verifyOptions cfg).

(** [getKey] spelled out by what the two clients answer. *)
Lemma getKey_cases (header : Server.Header) :
  getKey header =
  match localJwks (Server.kid header) with
  | inr key =>
      ([Server.GetSigningKey Server.LocalJwks (Server.kid header)],
       inr (Server.getPublicKey key))
  | inl _ =>
      match crossJwks (Server.kid header) with
      | inr crossKey =>
          ([Server.GetSigningKey Server.LocalJwks (Server.kid header);
            Server.GetSigningKey Server.CrossJwks (Server.kid header)],
           inr (Server.getPublicKey crossKey))
      | inl crossErr =>
          ([Server.GetSigningKey Server.LocalJwks (Server.kid header);
            Server.GetSigningKey Server.CrossJwks (Server.kid header);
            Server.ConsoleError
              ("Signing key not found in either JWKS endpoint: "
               ++ crossErr)],
           inl crossErr)
      end
  end.
Proof.
  unfold Server.getKey, Server.getSigningKey, Server.client; simpl.
  destruct (localJwks (Server.kid header)); simpl; [| reflexivity].
  destruct (crossJwks (Server.kid header)); reflexivity.
Qed.

(** The verdict of [verify] without its trace. *)
Lemma verify_result (token : option string) :
  result (verify token getKey options) =
  if negb (Js.truthy_opt token) then inl "jwt must be provided"
  else if negb (Nat.eqb (length (Js.split "." (Js.show token))) 3)
  then inl "jwt malformed"
  else
    match decode (Js.show token) with
    | Server.DecodeThrows msg => inl msg
    | Server.DecodeNull => inl "invalid token"
    | Server.Decoded header payload =>
        match result (getKey header) with
        | inl msg => inl ("error in secret or public key callback: " ++ msg)
        | inr key =>
            Server.verifyWithKey jws_verify clockTimestamp options
                                 (Js.show token) header payload key
        end
    end.
Proof.
  unfold Server.verify.
  destruct (negb (Js.truthy_opt token)); [reflexivity |].
  destruct (negb (Nat.eqb _ 3)); [reflexivity |].
  destruct (decode (Js.show token)); try reflexivity.
  rewrite result_bind. destruct (result (getKey h)); reflexivity.
Qed.

(** The verdict of [authenticate] without its trace. *)
Lemma authenticate_result (authHeader : option string) :
  result (authenticate authHeader) =
  if negb (Js.truthy_opt authHeader)
     || negb (Js.startsWith (Js.show authHeader) "Bearer ")
  then Server.Respond 401 Server.missingCredential
  else
    match result (verify (Server.bearerToken authHeader) getKey options) with
    | inl message => Server.Respond 401 (Server.invalidToken message)
    | inr decoded => Server.Next decoded
    end.
Proof.
  unfold Server.authenticate.
  destruct (negb (Js.truthy_opt authHeader) || _); [reflexivity |].
  rewrite !result_bind.
  destruct (result (verify _ getKey options)); [| reflexivity].
  rewrite result_bind. reflexivity.
Qed.

(** A token that is let through has passed every check. *)
Lemma signatureError_None (jwtString : string) (header : Server.Header)
      (key : K) :
  signatureError options jwtString header key = None ->
  Server.alg header = Some "RS256"
  /\ jws_verify jwtString "RS256" key = inr true.
Proof.
  unfold Server.signatureError; simpl.
  destruct (Js.blank _); [discriminate |].
  destruct (Server.alg header) as [a |]; [| discriminate].
  unfold Js.includes; simpl. rewrite orb_false_r.
  destruct (String.eqb_spec a "RS256") as [-> | Hne]; simpl;
    [| discriminate].
  destruct (jws_verify _ "RS256" key) as [e | [|]]; try discriminate.
  intros _; split; reflexivity.
Qed.

Lemma checkClaims_inr (payload user : Server.Payload) :
  checkClaims options payload = inr user ->
  user = payload
  /\ Server.nbfError clockTimestamp payload = None
  /\ Server.expError clockTimestamp payload = None
  /\ Server.invalid_issuer options payload = false.
Proof.
  unfold Server.checkClaims, Server.orElse, Server.issuerError.
  destruct (Server.nbfError clockTimestamp payload); [discriminate |].
  destruct (Server.expError clockTimestamp payload); [discriminate |].
  destruct (Server.invalid_issuer options payload); [discriminate |].
  intros H; inversion H; auto.
Qed.

Lemma verify_accepts (token : option string) (user : Server.Payload) :
  result (verify token getKey options) = inr user ->
  exists jwtString header key,
    token = Some jwtString
    /\ decode jwtString = Server.Decoded header user
    /\ result (getKey header) = inr key
    /\ signatureError options jwtString header key = None
    /\ Server.nbfError clockTimestamp user = None
    /\ Server.expError clockTimestamp user = None
    /\ Server.invalid_issuer options user = false.
Proof.
  rewrite verify_result.
  destruct token as [jwtString |]; [| discriminate].
  destruct (negb (Js.truthy_opt (Some jwtString))); [discriminate |].
  destruct (negb (Nat.eqb _ 3)); [discriminate |].
  simpl Js.show.
  destruct (decode jwtString) as [msg | | header payload] eqn:Hdec;
    try discriminate.
  destruct (result (getKey header)) as [msg | key] eqn:Hkey;
    [discriminate |].
  unfold Server.verifyWithKey, Server.orElse.
  destruct (signatureError options jwtString header key) eqn:Hsig;
    [discriminate |].
  intros Hc. apply checkClaims_inr in Hc as (-> & Hn & He & Hi).
  exists jwtString, header, key. repeat split; assumption.
Qed.

Lemma authenticate_accepts (authHeader : option string)
      (user : Server.Payload) :
  result (authenticate authHeader) = Server.Next user ->
  result (verify (Server.bearerToken authHeader) getKey options) = inr user.
Proof.
  rewrite authenticate_result.
  destruct (negb (Js.truthy_opt authHeader) || _); [discriminate |].
  destruct (result (verify _ getKey options)); [discriminate |].
  intros H; inversion H; reflexivity.
Qed.

(** Whatever is not let through is answered with 401. *)
Lemma authenticate_rejects_or_accepts (authHeader : option string) :
  (exists body, result (authenticate authHeader) = Server.Respond 401 body)
  \/ (exists user, result (authenticate authHeader) = Server.Next user).
Proof.
  rewrite authenticate_result.
  destruct (negb (Js.truthy_opt authHeader) || _); [left; eauto |].
  destruct (result (verify _ getKey options)); [left | right]; eauto.
Qed.

Lemma split_three_truthy (s : string) :
  length (Js.split "." s) = 3%nat -> Js.truthy s = true.
Proof. destruct s; [discriminate | reflexivity]. Qed.

Lemma signedCredential_result (authHeader : option string)
      (jwtString : string) (header : Server.Header)
      (payload : Server.Payload) (key : K) :
  Server.signedCredential cfg localJwks crossJwks decode jws_verify
                          authHeader jwtString header payload key ->
  result (authenticate authHeader) =
  match checkClaims options payload with
  | inl message => Server.Respond 401 (Server.invalidToken message)
  | inr decoded => Server.Next decoded
  end.
Proof.
  intros (Hpre & Htr & Htok & Hlen & Hdec & Hkey & Hsig).
  rewrite authenticate_result, Hpre, Htr; simpl.
  rewrite verify_result, Htok; simpl.
  rewrite (split_three_truthy _ Hlen), Hlen, Hdec, Hkey; simpl.
  unfold Server.verifyWithKey, Server.orElse. rewrite Hsig. reflexivity.
Qed.

Local Abbreviation signedCredential :=
  (Server.signedCredential cfg localJwks crossJwks decode jws_verify).

(** C3: [getKey] asks the local client first and the cross-region
    client only when the local one gave no key; the first key found is
    the answer; when neither has one the lookup fails with the
    cross-region client's error. The key returned is always an answer
    to the very [kid] of the token's header, so with clients that answer
    for the [kid] they are asked about, it is the key one of the two
    clients holds under that [kid], never the key of another [kid]. *)
Theorem getKey_local_then_cross (header : Server.Header) :
  let k := Server.kid header in
  (forall sk, localJwks k = inr sk ->
     getKey header =
     ([Server.GetSigningKey Server.LocalJwks k],
      inr (Server.getPublicKey sk)))
  /\ (forall e sk, localJwks k = inl e -> crossJwks k = inr sk ->
       getKey header =
       ([Server.GetSigningKey Server.LocalJwks k;
         Server.GetSigningKey Server.CrossJwks k],
        inr (Server.getPublicKey sk)))
  /\ (forall e e', localJwks k = inl e -> crossJwks k = inl e' ->
       getKey header =
       ([Server.GetSigningKey Server.LocalJwks k;
         Server.GetSigningKey Server.CrossJwks k;
         Server.ConsoleError
           ("Signing key not found in either JWKS endpoint: " ++ e')],
        inl e'))
  /\ (forall key, result (getKey header) = inr key ->
       exists sk,
         Server.getPublicKey sk = key
         /\ (localJwks k = inr sk
             \/ ((exists e, localJwks k = inl e) /\ crossJwks k = inr sk)))
  /\ (Server.answersTheKid localJwks ->
      Server.answersTheKid crossJwks ->
      forall requested key,
        k = Some requested ->
        result (getKey header) = inr key ->
        exists sk,
          Server.sk_kid sk = requested
          /\ Server.getPublicKey sk = key
          /\ (localJwks k = inr sk \/ crossJwks k = inr sk)).
Proof.
  intros k. subst k. rewrite getKey_cases.
  destruct (localJwks (Server.kid header)) as [e | sk] eqn:Hl;
    [destruct (crossJwks (Server.kid header)) as [e' | sk'] eqn:Hc |].
  - repeat split.
    + intros sk H; discriminate.
    + intros ? sk _ H; discriminate.
    + intros ? ? _ H; inversion H; reflexivity.
    + intros key H; discriminate.
    + intros _ _ requested key _ H; discriminate.
  - repeat split.
    + intros sk H; discriminate.
    + intros ? sk _ H; inversion H; reflexivity.
    + intros ? ? _ H; discriminate.
    + intros key H; inversion H; subst. exists sk'. split; [reflexivity |].
      right; split; [exists e; reflexivity | reflexivity].
    + intros _ Hcross requested key Hk H; inversion H; subst.
      exists sk'.
      split; [| split; [reflexivity | right; reflexivity]].
      rewrite Hk in Hc. exact (Hcross _ _ Hc).
  - repeat split.
    + intros sk' H; inversion H; reflexivity.
    + intros ? ? H; discriminate.
    + intros ? ? H; discriminate.
    + intros key H; inversion H; subst. exists sk. split; [reflexivity |].
      left; reflexivity.
    + intros Hlocal _ requested key Hk H; inversion H; subst.
      exists sk.
      split; [| split; [reflexivity | left; reflexivity]].
      rewrite Hk in Hl. exact (Hlocal _ _ Hl).
Qed.

(** C5: a request whose [Authorization] header is missing or does not
    begin with "Bearer " is answered at once with 401 and the
    missing-credential body, with nothing else done: no key lookup, no
    call of the verifier. Any other request is handed to the verifier,
    and that is the first thing that happens to it. *)
Theorem missing_bearer_fails_fast (authHeader : option string) :
  ((authHeader = None
    \/ exists h, authHeader = Some h /\ Js.startsWith h "Bearer " = false) ->
   authenticate authHeader =
   ([], Server.Respond 401 Server.missingCredential))
  /\ ((exists h, authHeader = Some h /\ Js.startsWith h "Bearer " = true) ->
      exists rest,
        trace (authenticate authHeader) =
        Server.JwtVerify (Server.bearerToken authHeader) :: rest)
  /\ (trace (authenticate authHeader) <> [] ->
      exists h, authHeader = Some h /\ Js.startsWith h "Bearer " = true).
Proof.
  assert (Hmiss :
    (authHeader = None
     \/ exists h, authHeader = Some h /\ Js.startsWith h "Bearer " = false) ->
    authenticate authHeader =
    ([], Server.Respond 401 Server.missingCredential)).
  { intros [-> | [h [-> Hh]]]; unfold Server.authenticate; simpl.
    - reflexivity.
    - rewrite Hh. rewrite orb_true_r. reflexivity. }
  split; [exact Hmiss |]. split.
  - intros [h [-> Hh]]. unfold Server.authenticate. simpl Js.show.
    rewrite Hh. assert (Ht : Js.truthy_opt (Some h) = true).
    { destruct h; [discriminate | reflexivity]. }
    rewrite Ht. simpl negb. simpl orb. cbv iota.
    rewrite trace_bind. simpl. eexists; reflexivity.
  - intros Hne. destruct authHeader as [h |].
    + destruct (Js.startsWith h "Bearer ") eqn:Hh; [eauto |].
      exfalso; apply Hne. rewrite Hmiss; [reflexivity |].
      right; eauto.
    + exfalso; apply Hne. rewrite Hmiss; [reflexivity | left; reflexivity].
Qed.

(** The issuer check is a membership test. *)
Lemma invalid_issuer_spec (payload : Server.Payload) :
  Server.invalid_issuer options payload = false <->
  exists i, Server.iss payload = Some i /\ In i (Server.ACCEPTED_ISSUERS cfg).
Proof.
  unfold Server.invalid_issuer.
  change (Server.issuer options) with (Server.ACCEPTED_ISSUERS cfg).
  destruct (Server.iss payload) as [i |].
  - rewrite negb_false_iff, includes_In. split.
    + intros H; exists i; auto.
    + intros [j [Hj Hin]]; inversion Hj; subst; exact Hin.
  - split; [discriminate | intros [i [H _]]; discriminate].
Qed.

(** A decoded bearer token that is let through is the token that was
    decoded. *)
Lemma accepted_token (authHeader : option string) (jwtString : string)
      (header : Server.Header) (payload user : Server.Payload) :
  Server.bearerToken authHeader = Some jwtString ->
  decode jwtString = Server.Decoded header payload ->
  result (authenticate authHeader) = Server.Next user ->
  user = payload
  /\ Server.alg header = Some "RS256"
  /\ Server.nbfError clockTimestamp payload = None
  /\ Server.expError clockTimestamp payload = None
  /\ Server.invalid_issuer options payload = false.
Proof.
  intros Htok Hdec Hacc.
  apply authenticate_accepts, verify_accepts in Hacc
    as (s' & h' & key & Htok' & Hdec' & _ & Hsig & Hn & He & Hi).
  rewrite Htok in Htok'. inversion Htok'; subst s'.
  rewrite Hdec in Hdec'. inversion Hdec'; subst h' user.
  apply signatureError_None in Hsig as [Halg _]. auto.
Qed.

(** A decoded bearer token is refused unless it is let through; in the
    latter case [accepted_token] says what it has passed. *)
Ltac refused_unless_passed Htok Hdec H :=
  match goal with
  | |- exists body, result (_ ?authHeader) = Server.Respond 401 body =>
      let Hrej := fresh "Hrej" in
      let user := fresh "user" in
      let Hacc := fresh "Hacc" in
      destruct (authenticate_rejects_or_accepts authHeader)
        as [Hrej | [user Hacc]]; [exact Hrej |];
      exfalso;
      pose proof (accepted_token _ _ _ _ _ Htok Hdec Hacc) as H
  end.

(** C1 (as amended): the allow-list holds exactly the internal and
    external issuer URL of the local region and of the peer region, and
    trust is equality with one of the four. A token whose issuer is none
    of them is never let through: the answer is 401. When such a token
    comes with a matching key and a valid signature and is within its
    validity period, the answer is the issuer denial. *)
Theorem issuer_trust_is_exact_membership :
  (forall i,
     Js.includes (Server.ACCEPTED_ISSUERS cfg) i = true <->
     i = Server.issuerOf (Server.KEYCLOAK_URL cfg) (Server.REALM cfg)
     \/ i = Server.issuerOf (Server.KEYCLOAK_EXTERNAL_URL cfg)
                            (Server.REALM cfg)
     \/ i = Server.issuerOf (Server.CROSS_KEYCLOAK_URL cfg)
                            (Server.CROSS_REALM cfg)
     \/ i = Server.issuerOf (Server.CROSS_KEYCLOAK_EXTERNAL_URL cfg)
                            (Server.CROSS_REALM cfg))
  /\ (forall authHeader jwtString header payload,
       Server.bearerToken authHeader = Some jwtString ->
       decode jwtString = Server.Decoded header payload ->
       (forall i, In i (Server.ACCEPTED_ISSUERS cfg) ->
                  Server.iss payload <> Some i) ->
       exists body,
         result (authenticate authHeader) = Server.Respond 401 body)
  /\ (forall authHeader jwtString header payload key,
       signedCredential authHeader jwtString header payload key ->
       Server.nbfError clockTimestamp payload = None ->
       Server.expError clockTimestamp payload = None ->
       (forall i, In i (Server.ACCEPTED_ISSUERS cfg) ->
                  Server.iss payload <> Some i) ->
       result (authenticate authHeader) =
       Server.Respond 401
         (Server.invalidToken
            ("jwt issuer invalid. expected: "
             ++ Js.toString (Server.ACCEPTED_ISSUERS cfg)))).
Proof.
  split; [| split].
  - intros i. rewrite includes_In. unfold Server.ACCEPTED_ISSUERS. simpl.
    split.
    + intros [H | [H | [H | [H | []]]]]; subst; auto.
    + intros [H | [H | [H | H]]]; subst; auto.
  - intros authHeader jwtString header payload Htok Hdec Hno.
    refused_unless_passed Htok Hdec Hpassed.
    destruct Hpassed as (_ & _ & _ & _ & Hi).
    apply invalid_issuer_spec in Hi as [i [Hiss Hin]].
    exact (Hno i Hin Hiss).
  - intros authHeader jwtString header payload key Hsc Hn He Hno.
    rewrite (signedCredential_result _ _ _ _ _ Hsc).
    unfold Server.checkClaims, Server.orElse, Server.issuerError.
    rewrite Hn, He.
    destruct (Server.invalid_issuer options payload) eqn:Hi;
      [reflexivity |].
    exfalso. apply invalid_issuer_spec in Hi as [i [Hiss Hin]].
    exact (Hno i Hin Hiss).
Qed.

(** C2: the verifier is called with the single algorithm RS256. A token
    whose header names any other algorithm (an HMAC one, "none", or no
    algorithm at all) is answered with 401, and whatever token is let
    through has a header that names RS256. *)
Theorem only_RS256_is_accepted :
  Server.algorithms options = ["RS256"]
  /\ (forall authHeader jwtString header payload,
       Server.bearerToken authHeader = Some jwtString ->
       decode jwtString = Server.Decoded header payload ->
       Server.alg header <> Some "RS256" ->
       exists body,
         result (authenticate authHeader) = Server.Respond 401 body)
  /\ (forall authHeader user,
       result (authenticate authHeader) = Server.Next user ->
       exists jwtString header,
         Server.bearerToken authHeader = Some jwtString
         /\ decode jwtString = Server.Decoded header user
         /\ Server.alg header = Some "RS256").
Proof.
  split; [reflexivity | split].
  - intros authHeader jwtString header payload Htok Hdec Hne.
    refused_unless_passed Htok Hdec Hpassed.
    destruct Hpassed as (_ & Halg & _). exact (Hne Halg).
  - intros authHeader user Hacc.
    apply authenticate_accepts, verify_accepts in Hacc
      as (s' & h' & key & Htok' & Hdec' & _ & Hsig & _).
    apply signatureError_None in Hsig as [Halg _].
    exists s', h'. auto.
Qed.

(** C6 (as amended): a token whose [exp] lies before the current time,
    the second just before it included, is never let through: the
    answer is 401. There is no allowance for clock skew: the expiry
    check fails exactly when the clock has reached [exp]. When the token
    comes with a matching key and a valid signature and is not barred by
    [nbf], the answer is the expiry denial. *)
Theorem expired_token_is_rejected :
  (forall authHeader jwtString header payload e,
     Server.bearerToken authHeader = Some jwtString ->
     decode jwtString = Server.Decoded header payload ->
     Server.exp payload = Server.Num e ->
     e < clockTimestamp ->
     exists body,
       result (authenticate authHeader) = Server.Respond 401 body)
  /\ (forall payload e,
       Server.exp payload = Server.Num e ->
       (Server.expError clockTimestamp payload = Some "jwt expired"
        <-> e <= clockTimestamp))
  /\ (forall authHeader jwtString header payload key e,
       signedCredential authHeader jwtString header payload key ->
       Server.nbfError clockTimestamp payload = None ->
       Server.exp payload = Server.Num e ->
       e < clockTimestamp ->
       result (authenticate authHeader) =
       Server.Respond 401 (Server.invalidToken "jwt expired")).
Proof.
  split; [| split].
  - intros authHeader jwtString header payload e Htok Hdec Hexp Hlt.
    refused_unless_passed Htok Hdec Hpassed.
    destruct Hpassed as (_ & _ & _ & He & _).
    unfold Server.expError in He. rewrite Hexp in He.
    destruct (Z.geb_spec clockTimestamp e); [discriminate | lia].
  - intros payload e Hexp. unfold Server.expError. rewrite Hexp.
    destruct (Z.geb_spec clockTimestamp e) as [Hge | Hlt']; split;
      intros Hx; try reflexivity; try discriminate; lia.
  - intros authHeader jwtString header payload key e Hsc Hn Hexp Hlt.
    rewrite (signedCredential_result _ _ _ _ _ Hsc).
    unfold Server.checkClaims, Server.orElse, Server.expError.
    rewrite Hn, Hexp.
    destruct (Z.geb_spec clockTimestamp e); [reflexivity | lia].
Qed.

(** C10 (as amended): the origin allow-list is the local and the
    cross-region frontend origin, matched by equality. A request with
    no [Origin] header, or with an empty one, passes the CORS gate
    whatever else it carries; so does a request whose origin is listed.
    A request with a non-empty origin that is not listed is ended with
    an error before anything else is done: no verifier call, no key
    lookup. *)
Theorem cors_gate_checks_present_origins_only (req : Server.Request) :
  Server.allowedOrigins cfg
  = [Server.CORS_ORIGIN cfg; Server.CROSS_CORS_ORIGIN cfg]
  /\ (Js.truthy_opt (Server.origin req) = false ->
      Server.corsOrigin cfg (Server.origin req) = inr true)
  /\ (forall o, Server.origin req = Some o ->
                In o (Server.allowedOrigins cfg) ->
                Server.corsOrigin cfg (Server.origin req) = inr true)
  /\ (Server.corsOrigin cfg (Server.origin req) = inr true ->
      Server.app cfg localJwks crossJwks decode jws_verify
                 clockTimestamp req
      = match Server.method req with
        | Server.OPTIONS => ret Server.Preflight
        | _ => Server.routes cfg localJwks crossJwks decode jws_verify
                             clockTimestamp req
        end)
  /\ (forall o, Server.origin req = Some o ->
                o <> "" ->
                ~ In o (Server.allowedOrigins cfg) ->
                Server.app cfg localJwks crossJwks decode jws_verify
                           clockTimestamp req
                = ([], Server.MiddlewareError
                         ("CORS: origin " ++ o ++ " not allowed"))).
Proof.
  split; [reflexivity | split; [| split; [| split]]].
  - intros H. unfold Server.corsOrigin. rewrite H. reflexivity.
  - intros o Ho Hin. unfold Server.corsOrigin. rewrite Ho. simpl Js.show.
    apply includes_In in Hin. rewrite Hin, orb_true_r. reflexivity.
  - intros H. unfold Server.app. rewrite H. reflexivity.
  - intros o Ho Hne Hnin. unfold Server.app, Server.corsOrigin.
    rewrite Ho. simpl Js.show.
    apply includes_false_not_In in Hnin. rewrite Hnin.
    assert (Ht : Js.truthy_opt (Some o) = true).
    { destruct o; [contradiction | reflexivity]. }
    rewrite Ht. reflexivity.
Qed.

End GateFacts.

(** ** The answer to a refused credential *)

Lemma prefix_app (x r : string) : String.prefix x (x ++ r) = true.
Proof.
  induction x as [| c x IH]; simpl.
  - destruct r; reflexivity.
  - destruct (Ascii.ascii_dec c c) as [_ | Hne]; [exact IH |].
    exfalso; apply Hne; reflexivity.
Qed.

Lemma contains_app_r (a b x : string) :
  Js.contains b x = true -> Js.contains (a ++ b) x = true.
Proof.
  intros H. induction a as [| c a IH]; simpl; [exact H |].
  rewrite IH. apply orb_true_r.
Qed.

Lemma contains_of_prefix (s x : string) :
  String.prefix x s = true -> Js.contains s x = true.
Proof.
  intros H. destruct s; cbn [Js.contains]; rewrite H; reflexivity.
Qed.

Lemma contains_prefix_app (x r : string) : Js.contains (x ++ r) x = true.
Proof. apply contains_of_prefix, prefix_app. Qed.

Lemma contains_refl (x : string) : Js.contains x x = true.
Proof.
  apply contains_of_prefix.
  induction x as [| c x IH]; simpl; [reflexivity |].
  destruct (Ascii.ascii_dec c c) as [_ | Hne]; [exact IH |].
  exfalso; apply Hne; reflexivity.
Qed.

Lemma contains_concat (sep x : string) (xs : list string) :
  In x xs -> Js.contains (String.concat sep xs) x = true.
Proof.
  induction xs as [| y ys IH]; intros Hin; [contradiction |].
  destruct ys as [| z zs].
  - destruct Hin as [-> | []]. simpl. apply contains_refl.
  - change (String.concat sep (y :: z :: zs))
      with (y ++ sep ++ String.concat sep (z :: zs)).
    destruct Hin as [-> | Hin].
    + apply contains_prefix_app.
    + apply contains_app_r, contains_app_r, IH, Hin.
Qed.

(** The key material reaches the answer only through the verdict of the
    signature primitive. *)
Lemma getKey_mapResolver {K1 K2 : Type} (f : K1 -> K2)
      (localJwks crossJwks : Server.Resolver K1) (header : Server.Header) :
  Server.getKey (Server.mapResolver f localJwks)
                (Server.mapResolver f crossJwks) header
  = (trace (Server.getKey localJwks crossJwks header),
     match result (Server.getKey localJwks crossJwks header) with
     | inl e => inl e
     | inr k => inr (f k)
     end).
Proof.
  rewrite !getKey_cases. unfold Server.mapResolver.
  destruct (localJwks (Server.kid header)); [| reflexivity].
  destruct (crossJwks (Server.kid header)); reflexivity.
Qed.

Lemma signatureError_map {K1 K2 : Type} (f : K1 -> K2)
      (jws1 : string -> string -> K1 -> string + bool)
      (jws2 : string -> string -> K2 -> string + bool)
      (options : Server.VerifyOptions) (jwtString : string)
      (header : Server.Header) (key : K1) :
  (forall s a k, jws2 s a (f k) = jws1 s a k) ->
  Server.signatureError jws2 options jwtString header (f key)
  = Server.signatureError jws1 options jwtString header key.
Proof.
  intros H. unfold Server.signatureError.
  destruct (Js.blank _); [reflexivity |].
  destruct (Server.alg header) as [a |]; [| reflexivity].
  destruct (negb _); [reflexivity |].
  rewrite H. reflexivity.
Qed.

Lemma authenticate_mapResolver {K1 K2 : Type} (f : K1 -> K2)
      (cfg : Server.Config) (localJwks crossJwks : Server.Resolver K1)
      (decode : string -> Server.DecodeResult)
      (jws1 : string -> string -> K1 -> string + bool)
      (jws2 : string -> string -> K2 -> string + bool)
      (clockTimestamp : Z) (authHeader : option string) :
  (forall s a k, jws2 s a (f k) = jws1 s a k) ->
  Server.authenticate cfg (Server.mapResolver f localJwks)
                      (Server.mapResolver f crossJwks) decode jws2
                      clockTimestamp authHeader
  = Server.authenticate cfg localJwks crossJwks decode jws1
                        clockTimestamp authHeader.
Proof.
  intros H. unfold Server.authenticate.
  destruct (negb (Js.truthy_opt authHeader) || _); [reflexivity |].
  f_equal. unfold Server.verify.
  destruct (negb (Js.truthy_opt _)); [reflexivity |].
  destruct (negb (Nat.eqb _ 3)); [reflexivity |].
  destruct (decode _) as [msg | | header payload]; try reflexivity.
  rewrite getKey_mapResolver.
  destruct (Server.getKey localJwks crossJwks header) as [t [e | key]];
    simpl; [reflexivity |].
  unfold Server.verifyWithKey.
  rewrite (signatureError_map f jws1 jws2 _ _ _ _ H). reflexivity.
Qed.

Section DenialBody.
Context {K : Type}.
Variable cfg : Server.Config.
Variables localJwks crossJwks : Server.Resolver K.
Variable decode : string -> Server.DecodeResult.
Variable jws_verify : string -> string -> K -> string + bool.
Variable clockTimestamp : Z.

Local Abbreviation authenticate :=
  (Server.authenticate cfg localJwks crossJwks decode jws_verify
                       clockTimestamp).

(** C4 (as amended): every refusal is a 401 whose body tells "no
    credential supplied" from "credential supplied but invalid" by its
    [error] label. The body holds that label and, for an invalid
    credential, a [detail] that is the verifier's message as it stands.
    No key material enters the answer: it is the same whatever the keys
    are replaced with, as long as signatures verify alike. The
    verifier's message for an issuer outside the allow-list, however,
    spells out every accepted issuer. *)
Theorem denial_body_is_label_and_verifier_message
        (authHeader : option string) :
  (forall status body,
     result (authenticate authHeader) = Server.Respond status body ->
     status = 401
     /\ ((Server.credentialSupplied authHeader = false
          /\ body = Server.missingCredential)
         \/ (Server.credentialSupplied authHeader = true
             /\ exists message,
                 result (Server.verify decode jws_verify clockTimestamp
                           (Server.bearerToken authHeader)
                           (Server.getKey localJwks crossJwks)
                           (Server.verifyOptions cfg)) = inl message
                 /\ body = Server.invalidToken message)))
  /\ (forall message,
        Server.error Server.missingCredential
        <> Server.error (Server.invalidToken message))
  /\ (forall (K2 : Type) (f : K -> K2)
             (jws2 : string -> string -> K2 -> string + bool),
        (forall s a k, jws2 s a (f k) = jws_verify s a k) ->
        Server.authenticate cfg (Server.mapResolver f localJwks)
                            (Server.mapResolver f crossJwks) decode jws2
                            clockTimestamp authHeader
        = authenticate authHeader)
  /\ (forall jwtString header payload key,
        Server.signedCredential cfg localJwks crossJwks decode jws_verify
                                authHeader jwtString header payload key ->
        Server.nbfError clockTimestamp payload = None ->
        Server.expError clockTimestamp payload = None ->
        Server.invalid_issuer (Server.verifyOptions cfg) payload = true ->
        exists message,
          result (authenticate authHeader)
          = Server.Respond 401 (Server.invalidToken message)
          /\ forall i, In i (Server.ACCEPTED_ISSUERS cfg) ->
                       Js.contains message i = true).
Proof.
  split; [| split; [| split]].
  - intros status body. rewrite authenticate_result.
    unfold Server.credentialSupplied.
    destruct (Js.truthy_opt authHeader); simpl.
    + destruct (Js.startsWith (Js.show authHeader) "Bearer "); simpl.
      * destruct (result (Server.verify _ _ _ _ _ _)) as [message | user];
          intros H; inversion H; subst.
        split; [reflexivity |]. right. split; [reflexivity |].
        exists message. split; reflexivity.
      * intros H; inversion H; subst. split; [reflexivity |]. left.
        split; reflexivity.
    + intros H; inversion H; subst. split; [reflexivity |]. left.
      split; reflexivity.
  - intros message. discriminate.
  - intros K2 f jws2 H. apply authenticate_mapResolver. exact H.
  - intros jwtString header payload key Hsc Hn He Hi.
    exists ("jwt issuer invalid. expected: "
            ++ Js.toString (Server.ACCEPTED_ISSUERS cfg)).
    split.
    + rewrite (signedCredential_result _ _ _ _ _ _ _ _ _ _ _ Hsc).
      unfold Server.checkClaims, Server.orElse, Server.issuerError.
      rewrite Hn, He, Hi. reflexivity.
    + intros i Hin. apply contains_app_r. unfold Js.toString.
      apply contains_concat. exact Hin.
Qed.

End DenialBody.

(** C4, as first stated, fails: a validly signed, unexpired token of a
    foreign issuer is refused with a body that lists all four accepted
    issuers. *)
Lemma issuer_denial_reveals_allow_list :
  result (Fixture.authenticate (Some "Bearer evil.fresh.US-PEM"))
  = Server.Respond 401
      {| Server.error := "Invalid token";
         Server.detail :=
           Some "jwt issuer invalid. expected: http://localhost:8080/realms/us-realm,http://localhost:8080/realms/us-realm,http://localhost:8081/realms/eu-realm,http://localhost:8081/realms/eu-realm" |}
  /\ forallb
       (Js.contains
          "jwt issuer invalid. expected: http://localhost:8080/realms/us-realm,http://localhost:8080/realms/us-realm,http://localhost:8081/realms/eu-realm,http://localhost:8081/realms/eu-realm")
       (Server.ACCEPTED_ISSUERS Server.defaultConfig)
     = true.
Proof. split; vm_compute; reflexivity. Qed.

(** C1, as first stated, fails: a token of a foreign issuer that finds
    its key and carries a valid signature, but has run out, is refused
    for its expiry, not for its issuer: the verifier looks at [exp]
    before it looks at [iss]. *)
Lemma expired_foreign_token_is_denied_as_expired :
  Server.signedCredential Server.defaultConfig Fixture.localJwks
    Fixture.crossJwks Fixture.decode Fixture.jws_verify
    (Some "Bearer evil.stale.US-PEM") "evil.stale.US-PEM"
    (Fixture.rs256 "us-1") (Fixture.claims Fixture.evilIssuer 999)
    "US-PEM"
  /\ Js.includes (Server.ACCEPTED_ISSUERS Server.defaultConfig)
                 Fixture.evilIssuer = false
  /\ result (Fixture.authenticate (Some "Bearer evil.stale.US-PEM"))
     = Server.Respond 401 (Server.invalidToken "jwt expired").
Proof. repeat split. Qed.

(** C6, as first stated, fails: a token that has run out is refused,
    but not always for its expiry. The verifier looks at the key, the
    signature and [nbf] before it looks at [exp]: a token that ran out
    at 999 and is not to be used before 1001 is denied at 1000 as not
    yet active although its key is found and its signature is good; one
    with a signature that is not its key's is denied for the signature,
    and one whose key nobody has for the failed key lookup. *)
Lemma expired_token_is_denied_for_an_earlier_check :
  (Server.signedCredential Server.defaultConfig Fixture.localJwks
     Fixture.crossJwks Fixture.decode Fixture.jws_verify
     (Some "Bearer us.early.US-PEM") "us.early.US-PEM"
     (Fixture.rs256 "us-1") (Fixture.claimsFrom Fixture.usIssuer 1001 999)
     "US-PEM"
   /\ Server.exp (Fixture.claimsFrom Fixture.usIssuer 1001 999)
      = Server.Num (Fixture.clock - 1)
   /\ result (Fixture.authenticate (Some "Bearer us.early.US-PEM"))
      = Server.Respond 401 (Server.invalidToken "jwt not active"))
  /\ (Fixture.decode "us.stale.EU-PEM"
      = Server.Decoded (Fixture.rs256 "us-1")
                       (Fixture.claims Fixture.usIssuer 999)
      /\ result (Fixture.authenticate (Some "Bearer us.stale.EU-PEM"))
         = Server.Respond 401 (Server.invalidToken "invalid signature"))
  /\ (Fixture.decode "zz.stale.ZZ-PEM"
      = Server.Decoded (Fixture.rs256 "zz-9")
                       (Fixture.claims Fixture.usIssuer 999)
      /\ result (Fixture.authenticate (Some "Bearer zz.stale.ZZ-PEM"))
         = Server.Respond 401
             (Server.invalidToken
                ("error in secret or public key callback: "
                 ++ "Unable to find a signing key that matches 'zz-9'"))).
Proof. repeat split. Qed.

(** C10, as first stated, fails: a request that does present an
    [Origin] header, an empty one, passes the gate although the empty
    origin is not on the allow-list; the request goes on to the
    authentication middleware. *)
Lemma empty_origin_passes_the_gate :
  ~ In "" (Server.allowedOrigins Server.defaultConfig)
  /\ Server.corsOrigin Server.defaultConfig (Some "") = inr true
  /\ Fixture.app (Fixture.get "/api/data" (Some "") None)
     = ([], Server.Denied 401 Server.missingCredential).
Proof.
  split; [| split; vm_compute; reflexivity].
  simpl. intros [H | [H | []]]; discriminate.
Qed.

(** * Properties of the client *)

(** ** The brokered redirect *)

(** C8 (as amended): for a query that needs no decoding (no percent
    escape, no [+]): when the page loads with an [idp_hint] parameter
    of non-empty value and [init] settles as "not authenticated", the
    first thing done after [init] is a login directed at the alias the
    parameter names. No login is started when silent authentication
    succeeds, when [init] fails, or when the parameter is missing or
    empty. What happens depends on the query only through the value of
    [idp_hint], so loading the same link again does the same, and within
    one page load the effect runs once. *)
Theorem brokered_redirect_on_unauthenticated_load (search : string) :
  EuApp.plainQuery search = true ->
  (forall hint,
     EuApp.get (EuApp.parseSearch search) "idp_hint" = Some hint ->
     hint <> "" ->
     EuApp.useEffect search (EuApp.InitResolved false) EuApp.pageLoad
     = ([EuApp.KeycloakInit;
         EuApp.KeycloakLogin
           (Some {| EuApp.idpHint := Some hint;
                    EuApp.loginHint := None |})],
        {| EuApp.authenticated := false;
           EuApp.initialized := true;
           EuApp.initCalled := true |}))
  /\ EuApp.useEffect search (EuApp.InitResolved true) EuApp.pageLoad
     = ([EuApp.KeycloakInit],
        {| EuApp.authenticated := true;
           EuApp.initialized := true;
           EuApp.initCalled := true |})
  /\ (forall err,
        EuApp.useEffect search (EuApp.InitRejected err) EuApp.pageLoad
        = ([EuApp.KeycloakInit;
            EuApp.ConsoleError ("Keycloak init error: " ++ err)],
           {| EuApp.authenticated := false;
              EuApp.initialized := true;
              EuApp.initCalled := true |}))
  /\ (Js.truthy_opt (EuApp.get (EuApp.parseSearch search) "idp_hint")
      = false ->
      EuApp.useEffect search (EuApp.InitResolved false) EuApp.pageLoad
      = ([EuApp.KeycloakInit],
         {| EuApp.authenticated := false;
            EuApp.initialized := true;
            EuApp.initCalled := true |}))
  /\ (forall search' outcome,
        EuApp.plainQuery search' = true ->
        EuApp.get (EuApp.parseSearch search') "idp_hint"
        = EuApp.get (EuApp.parseSearch search) "idp_hint" ->
        EuApp.useEffect search' outcome EuApp.pageLoad
        = EuApp.useEffect search outcome EuApp.pageLoad)
  /\ (forall outcome outcome',
        EuApp.useEffect search outcome'
          (result (EuApp.useEffect search outcome EuApp.pageLoad))
        = ([], result (EuApp.useEffect search outcome EuApp.pageLoad))).
Proof.
  intros _. split; [| split; [| split; [| split; [| split]]]].
  - intros hint Hget Hne. unfold EuApp.useEffect; simpl. rewrite Hget.
    destruct hint; [contradiction | reflexivity].
  - reflexivity.
  - intros err. reflexivity.
  - intros H. unfold EuApp.useEffect; simpl. rewrite H. reflexivity.
  - intros search' outcome _ H. unfold EuApp.useEffect; simpl.
    rewrite H. reflexivity.
  - intros outcome outcome'. unfold EuApp.useEffect; simpl.
    destruct outcome as [[|] | err]; simpl; try reflexivity.
    destruct (Js.truthy_opt _); reflexivity.
Qed.

(** C8, as first stated, fails twice over: with the parameter present
    but empty, and with a named alias but a failed [init], the page is
    left unauthenticated on its landing page and no login is started. *)
Lemma present_hint_without_redirect :
  (EuApp.plainQuery "?idp_hint=" = true
   /\ EuApp.get (EuApp.parseSearch "?idp_hint=") "idp_hint" = Some ""
   /\ EuApp.useEffect "?idp_hint=" (EuApp.InitResolved false) EuApp.pageLoad
      = ([EuApp.KeycloakInit],
         {| EuApp.authenticated := false;
            EuApp.initialized := true;
            EuApp.initCalled := true |}))
  /\ (EuApp.plainQuery "?idp_hint=us-keycloak-idp" = true
      /\ EuApp.get (EuApp.parseSearch "?idp_hint=us-keycloak-idp") "idp_hint"
         = Some "us-keycloak-idp"
      /\ EuApp.useEffect "?idp_hint=us-keycloak-idp"
                         (EuApp.InitRejected "Timeout")
                         EuApp.pageLoad
         = ([EuApp.KeycloakInit;
             EuApp.ConsoleError "Keycloak init error: Timeout"],
            {| EuApp.authenticated := false;
               EuApp.initialized := true;
               EuApp.initCalled := true |})
      /\ EuApp.render
           (result (EuApp.useEffect "?idp_hint=us-keycloak-idp"
                                    (EuApp.InitRejected "Timeout")
                                    EuApp.pageLoad))
         = EuApp.LandingPage).
Proof. repeat split. Qed.

(** ** Refresh before every call *)

(** What [updateToken(30)] does for a session that holds a parsed token,
    a refresh token and a clock offset. *)
Lemma updateToken_30 (kc : EuApp.Keycloak) (now e skew : Z) (rt : string)
      (response : EuApp.RefreshResponse) :
  EuApp.refreshToken kc = Some rt ->
  rt <> "" ->
  EuApp.tokenParsed_exp kc = Some e ->
  EuApp.timeSkew kc = Some skew ->
  EuApp.updateToken 30 now response kc =
  if e - now + skew <? 30 then
    match response with
    | EuApp.Refreshed access exp skew' refresh =>
        ([EuApp.RefreshRequest rt],
         (EuApp.setToken access exp skew' refresh, inr true))
    | EuApp.RefreshStatus status rejection =>
        ([EuApp.RefreshRequest rt],
         (if status =? 400 then EuApp.clearToken kc else kc, inl rejection))
    end
  else ([], (kc, inr false)).
Proof.
  intros Hrt Hne He Hs. unfold EuApp.updateToken, EuApp.isTokenExpired.
  rewrite Hrt, He, Hs.
  assert (Ht : Js.truthy rt = true) by (destruct rt; [contradiction | reflexivity]).
  rewrite Ht. simpl.
  replace (e - now + skew - 30 <? 0) with (e - now + skew <? 30).
  - destruct (e - now + skew <? 30); [| reflexivity].
    destruct response; reflexivity.
  - destruct (Z.ltb_spec (e - now + skew) 30);
      destruct (Z.ltb_spec (e - now + skew - 30) 0); try reflexivity; lia.
Qed.

(** C7 (as amended): each of the two operations that send the token
    first asks for a token good for 30 more seconds. With 30 seconds or
    more left nothing is refreshed and the held token is sent. With
    less, a refresh request goes out before anything else; if it
    succeeds the new token is the one sent; if it fails nothing is sent
    at all, the rejection is shown in the caller's result pane, and the
    page's own [authenticated] state is left as it was. *)
Theorem token_is_refreshed_before_use
        (op : EuApp.Operation) (key : EuApp.ApiKey) (now : Z)
        (response : EuApp.RefreshResponse) (fetched : EuApp.FetchResult)
        (c : EuApp.Client) (e skew : Z) (rt : string) :
  EuApp.refreshToken (EuApp.keycloak c) = Some rt ->
  rt <> "" ->
  EuApp.tokenParsed_exp (EuApp.keycloak c) = Some e ->
  EuApp.timeSkew (EuApp.keycloak c) = Some skew ->
  let run := EuApp.perform op key now response fetched c in
  let url := EuApp.baseOf op ++ "/api/" ++ EuApp.endpointOf key in
  (30 <= e - now + skew ->
   trace run = [EuApp.Fetch url (EuApp.bearer (EuApp.keycloak c))]
   /\ EuApp.keycloak (result run) = EuApp.keycloak c)
  /\ (e - now + skew < 30 ->
      forall access exp skew' refresh,
        response = EuApp.Refreshed access exp skew' refresh ->
        trace run = [EuApp.RefreshRequest rt;
                     EuApp.Fetch url ("Bearer " ++ access)]
        /\ EuApp.token (EuApp.keycloak (result run)) = Some access
        /\ EuApp.tokenParsed_exp (EuApp.keycloak (result run)) = Some exp)
  /\ (e - now + skew < 30 ->
      forall status rejection,
        response = EuApp.RefreshStatus status rejection ->
        trace run = [EuApp.RefreshRequest rt]
        /\ EuApp.shownBy key (EuApp.panesOf op (result run))
           = EuApp.ShowError rejection
        /\ EuApp.app (result run) = EuApp.app c)
  /\ EuApp.app (result run) = EuApp.app c.
Proof.
  intros Hrt Hne He Hs run url. subst run url.
  destruct op; unfold EuApp.perform, EuApp.callApi, EuApp.callCrossApi;
    rewrite (updateToken_30 _ now e skew rt response Hrt Hne He Hs);
    destruct (Z.ltb_spec (e - now + skew) 30) as [Hlt | Hge].
  all: split; [| split; [| split]].
  all: try (intros Hcontra; exfalso; lia).
  all: try (intros _ access exp' iat refresh ->; cbn [bind];
            destruct fetched as [msg | [|] st [m | t]];
            repeat split; reflexivity).
  all: try (intros _ st rejection ->; cbn [bind];
            repeat split; destruct key; reflexivity).
  all: try (intros _; destruct fetched as [msg | [|] st [m | t]];
            split; reflexivity).
  all: destruct response; destruct fetched as [msg | [|] st [m | t]];
    reflexivity.
Qed.

(** C7, as first stated, fails: after a refresh that failed, the page
    still counts as authenticated and shows its dashboard; and unless
    the token endpoint answered 400 the adapter still holds the stale
    token. *)
Lemma failed_refresh_keeps_the_session :
  let after status :=
    result (EuApp.callApi EuApp.userinfo 1000
              (EuApp.RefreshStatus status "true")
              (EuApp.NetworkError "unreachable") Fixture.signedIn) in
  EuApp.authenticated (EuApp.app (after 500)) = true
  /\ EuApp.render (EuApp.app (after 500)) = EuApp.Dashboard
  /\ EuApp.token (EuApp.keycloak (after 500)) = Some "old-token"
  /\ EuApp.authenticated (EuApp.app (after 400)) = true
  /\ EuApp.render (EuApp.app (after 400)) = EuApp.Dashboard
  /\ EuApp.userInfoResult (EuApp.apiDemo (after 500))
     = EuApp.ShowError "true".
Proof. repeat split. Qed.

(** * The theorems at work on the small deployment *)

Lemma keySetResolver_answersTheKid {K : Type}
      (keys : string + list (Server.SigningKey K)) :
  Server.answersTheKid (Server.keySetResolver keys).
Proof.
  intros k sk. unfold Server.keySetResolver.
  destruct keys as [e | [| k0 ks]]; [discriminate | discriminate |].
  destruct (find _ (k0 :: ks)) as [sk' |] eqn:Hf; [| discriminate].
  intros H; inversion H; subst sk'.
  apply find_some in Hf as [_ Heq]. apply String.eqb_eq in Heq. exact Heq.
Qed.

Lemma issuer_trust_witness :
  Server.signedCredential Server.defaultConfig Fixture.localJwks
    Fixture.crossJwks Fixture.decode Fixture.jws_verify
    (Some "Bearer evil.fresh.US-PEM") "evil.fresh.US-PEM"
    (Fixture.rs256 "us-1") (Fixture.claims Fixture.evilIssuer 2000)
    "US-PEM"
  /\ result (Fixture.authenticate (Some "Bearer evil.fresh.US-PEM"))
     = Server.Respond 401
         (Server.invalidToken
            ("jwt issuer invalid. expected: "
             ++ Js.toString (Server.ACCEPTED_ISSUERS Server.defaultConfig))).
Proof.
  split; [repeat split |].
  apply (proj2 (proj2 (issuer_trust_is_exact_membership
                         Server.defaultConfig Fixture.localJwks
                         Fixture.crossJwks Fixture.decode
                         Fixture.jws_verify Fixture.clock))
               (Some "Bearer evil.fresh.US-PEM") "evil.fresh.US-PEM"
               (Fixture.rs256 "us-1")
               (Fixture.claims Fixture.evilIssuer 2000) "US-PEM").
  - repeat split.
  - reflexivity.
  - reflexivity.
  - intros i [H | [H | [H | [H | []]]]]; subst; discriminate.
Defined.

Lemma only_RS256_witness :
  Server.alg {| Server.alg := Some "HS256"; Server.kid := Some "us-1" |}
  <> Some "RS256"
  /\ exists body,
      result (Fixture.authenticate (Some "Bearer hs.fresh.US-PEM"))
      = Server.Respond 401 body.
Proof.
  split; [discriminate |].
  apply (proj1 (proj2 (only_RS256_is_accepted
                         Server.defaultConfig Fixture.localJwks
                         Fixture.crossJwks Fixture.decode
                         Fixture.jws_verify Fixture.clock))
               (Some "Bearer hs.fresh.US-PEM") "hs.fresh.US-PEM"
               {| Server.alg := Some "HS256"; Server.kid := Some "us-1" |}
               (Fixture.claims Fixture.usIssuer 2000)).
  - reflexivity.
  - reflexivity.
  - discriminate.
Defined.

Lemma getKey_witness :
  Fixture.localJwks (Some "eu-1")
  = inl "Unable to find a signing key that matches 'eu-1'"
  /\ Fixture.crossJwks (Some "eu-1") = inr Fixture.euKey
  /\ Server.getKey Fixture.localJwks Fixture.crossJwks (Fixture.rs256 "eu-1")
     = ([Server.GetSigningKey Server.LocalJwks (Some "eu-1");
         Server.GetSigningKey Server.CrossJwks (Some "eu-1")],
        inr "EU-PEM")
  /\ exists sk,
       Server.sk_kid sk = "eu-1"
       /\ Server.getPublicKey sk = "EU-PEM"
       /\ (Fixture.localJwks (Some "eu-1") = inr sk
           \/ Fixture.crossJwks (Some "eu-1") = inr sk).
Proof.
  pose proof (getKey_local_then_cross Fixture.localJwks Fixture.crossJwks
                                      (Fixture.rs256 "eu-1")) as H.
  cbv zeta in H. destruct H as (_ & Hcross & _ & _ & Hkid).
  split; [reflexivity | split; [reflexivity | split]].
  - apply (Hcross "Unable to find a signing key that matches 'eu-1'"
                  Fixture.euKey); reflexivity.
  - apply (Hkid (keySetResolver_answersTheKid _)
                (keySetResolver_answersTheKid _) "eu-1" "EU-PEM");
      reflexivity.
Defined.

Lemma missing_bearer_witness :
  Js.startsWith "Basic dXNlcjpwYXNz" "Bearer " = false
  /\ Fixture.authenticate (Some "Basic dXNlcjpwYXNz")
     = ([], Server.Respond 401 Server.missingCredential).
Proof.
  split; [reflexivity |].
  apply (proj1 (missing_bearer_fails_fast
                  Server.defaultConfig Fixture.localJwks Fixture.crossJwks
                  Fixture.decode Fixture.jws_verify Fixture.clock
                  (Some "Basic dXNlcjpwYXNz"))).
  right. exists "Basic dXNlcjpwYXNz". split; reflexivity.
Defined.

Lemma expired_token_witness :
  999 = Fixture.clock - 1
  /\ result (Fixture.authenticate (Some "Bearer us.stale.US-PEM"))
     = Server.Respond 401 (Server.invalidToken "jwt expired").
Proof.
  split; [reflexivity |].
  apply (proj2 (proj2 (expired_token_is_rejected
                         Server.defaultConfig Fixture.localJwks
                         Fixture.crossJwks Fixture.decode
                         Fixture.jws_verify Fixture.clock))
               (Some "Bearer us.stale.US-PEM") "us.stale.US-PEM"
               (Fixture.rs256 "us-1") (Fixture.claims Fixture.usIssuer 999)
               "US-PEM" 999).
  - repeat split.
  - reflexivity.
  - reflexivity.
  - unfold Fixture.clock. lia.
Defined.

Lemma denial_body_witness :
  (Server.credentialSupplied (Some "Bearer evil.fresh.US-PEM") = true
   \/ Server.credentialSupplied (Some "Bearer evil.fresh.US-PEM") = false)
  /\ exists message,
      result (Fixture.authenticate (Some "Bearer evil.fresh.US-PEM"))
      = Server.Respond 401 (Server.invalidToken message)
      /\ forall i, In i (Server.ACCEPTED_ISSUERS Server.defaultConfig) ->
                   Js.contains message i = true.
Proof.
  split; [left; reflexivity |].
  apply (proj2 (proj2 (proj2 (denial_body_is_label_and_verifier_message
                                Server.defaultConfig Fixture.localJwks
                                Fixture.crossJwks Fixture.decode
                                Fixture.jws_verify Fixture.clock
                                (Some "Bearer evil.fresh.US-PEM"))))
               "evil.fresh.US-PEM" (Fixture.rs256 "us-1")
               (Fixture.claims Fixture.evilIssuer 2000) "US-PEM").
  - repeat split.
  - reflexivity.
  - reflexivity.
  - reflexivity.
Defined.

Lemma cors_gate_witness :
  "http://evil.example" <> ""
  /\ ~ In "http://evil.example" (Server.allowedOrigins Server.defaultConfig)
  /\ Fixture.app (Fixture.get "/api/data" (Some "http://evil.example")
                              (Some "Bearer us.fresh.US-PEM"))
     = ([], Server.MiddlewareError
              "CORS: origin http://evil.example not allowed").
Proof.
  assert (Hne : "http://evil.example" <> "") by discriminate.
  assert (Hnin : ~ In "http://evil.example"
                      (Server.allowedOrigins Server.defaultConfig)).
  { intros [H | [H | []]]; discriminate. }
  split; [exact Hne | split; [exact Hnin |]].
  apply (proj2 (proj2 (proj2 (proj2 (cors_gate_checks_present_origins_only
                                Server.defaultConfig Fixture.localJwks
                                Fixture.crossJwks Fixture.decode
                                Fixture.jws_verify Fixture.clock
                                (Fixture.get "/api/data"
                                   (Some "http://evil.example")
                                   (Some "Bearer us.fresh.US-PEM"))))))
               "http://evil.example").
  - reflexivity.
  - exact Hne.
  - exact Hnin.
Defined.

Lemma brokered_redirect_witness :
  EuApp.plainQuery "?lang=en&idp_hint=us-keycloak-idp" = true
  /\ EuApp.get (EuApp.parseSearch "?lang=en&idp_hint=us-keycloak-idp")
               "idp_hint" = Some "us-keycloak-idp"
  /\ EuApp.useEffect "?lang=en&idp_hint=us-keycloak-idp"
                    (EuApp.InitResolved false) EuApp.pageLoad
     = ([EuApp.KeycloakInit;
         EuApp.KeycloakLogin
           (Some {| EuApp.idpHint := Some "us-keycloak-idp";
                    EuApp.loginHint := None |})],
        {| EuApp.authenticated := false;
           EuApp.initialized := true;
           EuApp.initCalled := true |}).
Proof.
  split; [reflexivity | split; [reflexivity |]].
  apply (proj1 (brokered_redirect_on_unauthenticated_load
                  "?lang=en&idp_hint=us-keycloak-idp" eq_refl)
               "us-keycloak-idp").
  - reflexivity.
  - discriminate.
Defined.

Lemma token_refresh_witness :
  1010 - 1000 + 0 < 30
  /\ trace (EuApp.callCrossApi EuApp.data 1000
              (EuApp.RefreshStatus 500 "true")
              (EuApp.NetworkError "unreachable") Fixture.signedIn)
     = [EuApp.RefreshRequest "refresh-1"]
  /\ EuApp.dataResult
       (EuApp.crossApiDemo
          (result (EuApp.callCrossApi EuApp.data 1000
                     (EuApp.RefreshStatus 500 "true")
                     (EuApp.NetworkError "unreachable") Fixture.signedIn)))
     = EuApp.ShowError "true"
  /\ EuApp.app
       (result (EuApp.callCrossApi EuApp.data 1000
                  (EuApp.RefreshStatus 500 "true")
                  (EuApp.NetworkError "unreachable") Fixture.signedIn))
     = EuApp.app Fixture.signedIn.
Proof.
  assert (Hlt : 1010 - 1000 + 0 < 30) by lia.
  split; [exact Hlt |].
  pose proof (token_is_refreshed_before_use
                EuApp.CrossCall EuApp.data 1000
                (EuApp.RefreshStatus 500 "true")
                (EuApp.NetworkError "unreachable") Fixture.signedIn
                1010 0 "refresh-1" eq_refl) as H.
  assert (Hne : "refresh-1" <> "") by discriminate.
  specialize (H Hne eq_refl eq_refl). cbv zeta in H.
  destruct H as (_ & _ & Hfail & _).
  exact (Hfail Hlt 500 "true" eq_refl).
Defined.


(** * Further properties of the server *)

Section GateMore.
Context {K : Type}.
Variable cfg : Server.Config.
Variables localJwks crossJwks : Server.Resolver K.
Variable decode : string -> Server.DecodeResult.
Variable jws_verify : string -> string -> K -> string + bool.
Variable clockTimestamp : Z.

Local Abbreviation getKey := (Server.getKey localJwks crossJwks).
Local Abbreviation verify := (Server.verify decode jws_verify clockTimestamp).
Local Abbreviation authenticate :=
  (Server.authenticate cfg localJwks crossJwks decode jws_verify
                       clockTimestamp).
Local Abbreviation options := (Server.verifyOptions cfg).
Local Abbreviation signedCredential :=
  (Server.signedCredential cfg localJwks crossJwks decode jws_verify).
Local Abbreviation app :=
  (Server.app cfg localJwks crossJwks decode jws_verify clockTimestamp).

(** [authenticate] lets a request through exactly when its credential
    is a signed one and none of the three claim checks objects; the
    claims handed on are the decoded ones. *)
Lemma authenticate_accepts_exactly_valid_tokens
        (authHeader : option string) (user : Server.Payload) :
  result (authenticate authHeader) = Server.Next user <->
  exists jwtString header key,
    signedCredential authHeader jwtString header user key
    /\ Server.nbfError clockTimestamp user = None
    /\ Server.expError clockTimestamp user = None
    /\ Server.invalid_issuer options user = false.
Proof.
  split.
  - rewrite authenticate_result.
    destruct (Js.truthy_opt authHeader) eqn:Htr; [| discriminate].
    destruct (Js.startsWith (Js.show authHeader) "Bearer ") eqn:Hpre;
      [| discriminate]. simpl.
    rewrite verify_result.
    destruct (Server.bearerToken authHeader) as [jwtString |] eqn:Htok;
      [| discriminate].
    destruct (Js.truthy_opt (Some jwtString)); [| discriminate]. simpl.
    destruct (Nat.eqb_spec (length (Js.split "." jwtString)) 3)
      as [Hlen | Hlen]; [| discriminate]. simpl.
    destruct (decode jwtString) as [msg | | header payload] eqn:Hdec;
      try discriminate.
    destruct (result (getKey header)) as [msg | key] eqn:Hkey;
      [discriminate |].
    unfold Server.verifyWithKey, Server.orElse.
    destruct (Server.signatureError jws_verify options jwtString header key)
      eqn:Hsig; [discriminate |].
    destruct (Server.checkClaims clockTimestamp options payload)
      as [msg | decoded] eqn:Hc; [discriminate |].
    intros H; inversion H; subst decoded.
    apply checkClaims_inr in Hc as (-> & Hn & He & Hi).
    exists jwtString, header, key. repeat split; assumption.
  - intros (jwtString & header & key & Hsc & Hn & He & Hi).
    rewrite (signedCredential_result _ _ _ _ _ _ _ _ _ _ _ Hsc).
    unfold Server.checkClaims, Server.orElse, Server.issuerError.
    rewrite Hn, He, Hi. reflexivity.
Qed.

(** X1: the rules of admission, one by one. [authenticate] lets a
    request through exactly when: the header is there and begins with
    the bearer scheme; what follows its first space is a text of three
    dot-separated parts that decodes; the local client has a key for
    the [kid] of the header, or it has none and the cross-region client
    has one; the third part of the token is not blank; the header names
    RS256 and the signature primitive accepts the token under RS256 with
    that key; [nbf], if there, is a number not after the clock; [exp],
    if there, is a number after the clock; and [iss] is there and is one
    of the accepted issuers. The claims handed on are the decoded
    ones. *)
Theorem accepted_exactly_when_every_rule_holds
        (authHeader : option string) (user : Server.Payload) :
  result (authenticate authHeader) = Server.Next user <->
  exists h jwtString header key,
    authHeader = Some h
    /\ Js.startsWith h "Bearer " = true
    /\ nth_error (Js.split " " h) 1 = Some jwtString
    /\ length (Js.split "." jwtString) = 3%nat
    /\ decode jwtString = Server.Decoded header user
    /\ ((exists sk,
           localJwks (Server.kid header) = inr sk
           /\ key = Server.getPublicKey sk)
        \/ (exists e sk,
              localJwks (Server.kid header) = inl e
              /\ crossJwks (Server.kid header) = inr sk
              /\ key = Server.getPublicKey sk))
    /\ Js.blank (nth 2 (Js.split "." jwtString) "") = false
    /\ Server.alg header = Some "RS256"
    /\ jws_verify jwtString "RS256" key = inr true
    /\ (Server.nbf user = Server.Absent
        \/ exists n, Server.nbf user = Server.Num n /\ n <= clockTimestamp)
    /\ (Server.exp user = Server.Absent
        \/ exists e, Server.exp user = Server.Num e /\ clockTimestamp < e)
    /\ (exists i,
          Server.iss user = Some i /\ In i (Server.ACCEPTED_ISSUERS cfg)).
Proof.
  rewrite authenticate_accepts_exactly_valid_tokens. split.
  - intros (jwtString & header & key & Hsc & Hn & He & Hi).
    destruct Hsc as (Hpre & Htr & Htok & Hlen & Hdec & Hkey & Hsig).
    destruct authHeader as [h |]; [| discriminate].
    exists h, jwtString, header, key.
    split; [reflexivity |]. split; [exact Hpre |].
    split; [exact Htok |]. split; [exact Hlen |]. split; [exact Hdec |].
    split.
    { rewrite getKey_cases in Hkey.
      destruct (localJwks (Server.kid header)) as [e | sk].
      - destruct (crossJwks (Server.kid header)) as [e' | sk'];
          [discriminate |].
        inversion Hkey. right. exists e, sk'. auto.
      - inversion Hkey. left. exists sk. auto. }
    split.
    { unfold Server.signatureError in Hsig.
      destruct (Js.blank _); [discriminate | reflexivity]. }
    destruct (signatureError_None _ _ _ _ _ Hsig) as [Halg Hjws].
    split; [exact Halg |]. split; [exact Hjws |].
    split.
    { unfold Server.nbfError in Hn.
      destruct (Server.nbf user) as [| n |];
        [left; reflexivity | | discriminate].
      right. exists n. split; [reflexivity |].
      destruct (Z.gtb_spec n clockTimestamp); [discriminate | lia]. }
    split.
    { unfold Server.expError in He.
      destruct (Server.exp user) as [| e |];
        [left; reflexivity | | discriminate].
      right. exists e. split; [reflexivity |].
      destruct (Z.geb_spec clockTimestamp e); [discriminate | lia]. }
    apply (invalid_issuer_spec cfg). exact Hi.
  - intros (h & jwtString & header & key & -> & Hpre & Htok & Hlen & Hdec
            & Hkey & Hblank & Halg & Hjws & Hn & He & Hi).
    exists jwtString, header, key.
    split; [| split; [| split]].
    + split; [exact Hpre |].
      split; [destruct h; [discriminate | reflexivity] |].
      split; [exact Htok |]. split; [exact Hlen |]. split; [exact Hdec |].
      split.
      * rewrite getKey_cases.
        destruct Hkey as [(sk & -> & ->) | (e & sk & -> & -> & ->)];
          reflexivity.
      * unfold Server.signatureError. rewrite Hblank, Halg. simpl.
        rewrite Hjws. reflexivity.
    + unfold Server.nbfError.
      destruct Hn as [-> | (n & -> & Hle)]; [reflexivity |].
      destruct (Z.gtb_spec n clockTimestamp); [lia | reflexivity].
    + unfold Server.expError.
      destruct He as [-> | (e & -> & Hlt)]; [reflexivity |].
      destruct (Z.geb_spec clockTimestamp e); [lia | reflexivity].
    + apply (invalid_issuer_spec cfg). exact Hi.
Qed.

(** The trace of [verify] is the trace of the key lookup, if it gets
    that far. *)
Lemma verify_trace (token : option string) :
  trace (verify token getKey options) =
  if negb (Js.truthy_opt token) then []
  else if negb (Nat.eqb (length (Js.split "." (Js.show token))) 3) then []
  else
    match decode (Js.show token) with
    | Server.Decoded header _ => trace (getKey header)
    | _ => []
    end.
Proof.
  unfold Server.verify.
  destruct (negb (Js.truthy_opt token)); [reflexivity |].
  destruct (negb (Nat.eqb _ 3)); [reflexivity |].
  destruct (decode (Js.show token)); try reflexivity.
  rewrite trace_bind. destruct (result (getKey h)); simpl;
    apply app_nil_r.
Qed.

Lemma authenticate_trace (authHeader : option string) :
  trace (authenticate authHeader) =
  if negb (Js.truthy_opt authHeader)
     || negb (Js.startsWith (Js.show authHeader) "Bearer ")
  then []
  else
    (Server.JwtVerify (Server.bearerToken authHeader)
     :: trace (verify (Server.bearerToken authHeader) getKey options)
     ++ match result (verify (Server.bearerToken authHeader) getKey
                             options) with
        | inl message =>
            [Server.ConsoleError ("Token verification failed: " ++ message)]
        | inr _ => []
        end)%list.
Proof.
  unfold Server.authenticate.
  destruct (negb (Js.truthy_opt authHeader) || _); [reflexivity |].
  rewrite !trace_bind. simpl. f_equal. f_equal.
  destruct (result (verify _ getKey options)); reflexivity.
Qed.

(** X2: one request causes at most one lookup with each JWKS client,
    the local one first and the cross-region one only when the local
    one gave no key, both for the [kid] of the decoded header. A
    credential that is missing, is not a three-part token or does not
    decode causes no lookup at all. *)
Theorem key_lookups_of_a_request (authHeader : option string) :
  let lookups :=
    filter Observe.isLookup (trace (authenticate authHeader)) in
  lookups = []
  \/ exists header payload,
       Server.credentialSupplied authHeader = true
       /\ length (Js.split "." (Js.show (Server.bearerToken authHeader)))
          = 3%nat
       /\ decode (Js.show (Server.bearerToken authHeader))
          = Server.Decoded header payload
       /\ ((lookups
            = [Server.GetSigningKey Server.LocalJwks (Server.kid header)]
            /\ exists sk, localJwks (Server.kid header) = inr sk)
           \/ (lookups
               = [Server.GetSigningKey Server.LocalJwks (Server.kid header);
                  Server.GetSigningKey Server.CrossJwks (Server.kid header)]
               /\ exists e, localJwks (Server.kid header) = inl e)).
Proof.
  cbv zeta. rewrite authenticate_trace. unfold Server.credentialSupplied.
  destruct (Js.truthy_opt authHeader); [| left; reflexivity].
  destruct (Js.startsWith (Js.show authHeader) "Bearer ");
    [| left; reflexivity].
  simpl negb. simpl orb. cbv iota.
  rewrite verify_trace, verify_result.
  destruct (negb (Js.truthy_opt (Server.bearerToken authHeader)));
    [left; reflexivity |].
  destruct (Nat.eqb_spec
              (length (Js.split "." (Js.show (Server.bearerToken authHeader))))
              3) as [Hlen | Hlen]; [| left; reflexivity].
  simpl negb. cbv iota.
  destruct (decode (Js.show (Server.bearerToken authHeader)))
    as [msg | | header payload] eqn:Hdec; try (left; reflexivity).
  right. exists header, payload.
  split; [reflexivity | split; [exact Hlen | split; [reflexivity |]]].
  rewrite getKey_cases.
  destruct (localJwks (Server.kid header)) as [e | sk].
  - right. split; [| eauto].
    destruct (crossJwks (Server.kid header)); simpl; [reflexivity |].
    match goal with
    | |- context [Server.verifyWithKey ?a ?b ?c ?d ?e ?f ?g] =>
        destruct (Server.verifyWithKey a b c d e f g)
    end; reflexivity.
  - left. split; [| eauto]. simpl.
    match goal with
    | |- context [Server.verifyWithKey ?a ?b ?c ?d ?e ?f ?g] =>
        destruct (Server.verifyWithKey a b c d e f g)
    end; reflexivity.
Qed.

(** X3: what [authenticate] writes to the error console. A request
    that is let through writes nothing, and so does one without a
    bearer credential. A credential that is refused is reported by one
    line, the last thing done, with the very message the answer
    carries; nothing else is written, save that a key neither client
    could give has been reported by [getKey] just before, in which case
    the message is that of the failed key callback. *)
Theorem refusals_are_logged_with_their_message
        (authHeader : option string) :
  (forall user,
     result (authenticate authHeader) = Server.Next user ->
     filter Observe.isConsoleError (trace (authenticate authHeader)) = [])
  /\ (Server.credentialSupplied authHeader = false ->
      trace (authenticate authHeader) = [])
  /\ (forall status body,
        Server.credentialSupplied authHeader = true ->
        result (authenticate authHeader) = Server.Respond status body ->
        exists message before,
          body = Server.invalidToken message
          /\ trace (authenticate authHeader)
             = (before
                ++ [Server.ConsoleError
                      ("Token verification failed: " ++ message)])%list
          /\ (filter Observe.isConsoleError before = []
              \/ exists e,
                   message = "error in secret or public key callback: " ++ e
                   /\ filter Observe.isConsoleError before
                      = [Server.ConsoleError
                           ("Signing key not found in either JWKS endpoint: "
                            ++ e)])).
Proof.
  split; [| split].
  - intros user Hacc.
    pose proof (authenticate_accepts _ _ _ _ _ _ _ _ Hacc) as Hv.
    apply verify_accepts in Hv
      as (jwtString & header & key & Htok & Hdec & Hkey & _).
    rewrite authenticate_trace.
    rewrite authenticate_result in Hacc.
    destruct (negb (Js.truthy_opt authHeader) || _); [discriminate |].
    destruct (result (verify _ getKey options)) as [m | u] eqn:Hr;
      [discriminate |].
    rewrite verify_trace. rewrite verify_result in Hr.
    rewrite Htok in *. simpl Js.show in *.
    destruct (negb (Js.truthy_opt (Some jwtString))); [discriminate |].
    destruct (negb (Nat.eqb _ 3)); [discriminate |].
    rewrite Hdec in *. rewrite getKey_cases in *.
    destruct (localJwks (Server.kid header)); [| reflexivity].
    destruct (crossJwks (Server.kid header)); [discriminate | reflexivity].
  - unfold Server.credentialSupplied. intros Hsup.
    rewrite authenticate_trace.
    destruct (Js.truthy_opt authHeader); [| reflexivity].
    simpl in Hsup. rewrite Hsup. reflexivity.
  - intros status body Hsup. unfold Server.credentialSupplied in Hsup.
    apply andb_true_iff in Hsup as [Htr Hpre].
    rewrite authenticate_result, authenticate_trace, Htr, Hpre. simpl.
    destruct (result (verify _ getKey options)) as [message | u] eqn:Hr;
      intros H; inversion H; subst.
    exists message.
    exists (Server.JwtVerify (Server.bearerToken authHeader)
            :: trace (verify (Server.bearerToken authHeader) getKey options)).
    split; [reflexivity |]. split; [reflexivity |].
    cbn [filter Observe.isConsoleError].
    rewrite verify_trace. rewrite verify_result in Hr.
    destruct (negb (Js.truthy_opt (Server.bearerToken authHeader)));
      [left; reflexivity |].
    destruct (negb (Nat.eqb _ 3)); [left; reflexivity |].
    destruct (decode (Js.show (Server.bearerToken authHeader)))
      as [msg | | header payload]; try (left; reflexivity).
    rewrite getKey_cases in *.
    destruct (localJwks (Server.kid header)); [| left; reflexivity].
    destruct (crossJwks (Server.kid header)) as [e | sk];
      [| left; reflexivity].
    right. exists e. cbn [result snd] in Hr. inversion Hr.
    split; reflexivity.
Qed.

Lemma protected_cases (req : Server.Request)
      (handler : Server.Payload -> Server.Outcome) :
  Server.protected cfg localJwks crossJwks decode jws_verify clockTimestamp
                   req handler
  = (trace (authenticate (Server.authorization req)),
     match result (authenticate (Server.authorization req)) with
     | Server.Respond status body => Server.Denied status body
     | Server.Next user => handler user
     end).
Proof.
  unfold Server.protected.
  destruct (authenticate (Server.authorization req)) as [t [status body | user]];
    simpl; rewrite app_nil_r; reflexivity.
Qed.

(** The routes spelled out. *)
Lemma app_cases (req : Server.Request) :
  app req =
  let guarded handler :=
    (trace (authenticate (Server.authorization req)),
     match result (authenticate (Server.authorization req)) with
     | Server.Respond status body => Server.Denied status body
     | Server.Next user => handler user
     end) in
  let served :=
    if Server.matchesRoute "/api/health" (Server.path req)
    then ([], Server.Health)
    else if Server.matchesRoute "/api/userinfo" (Server.path req)
         then guarded Server.Userinfo
    else if Server.matchesRoute "/api/data" (Server.path req)
         then guarded Server.Data
    else ([], Server.NoRoute) in
  match Server.corsOrigin cfg (Server.origin req) with
  | inl msg => ([], Server.MiddlewareError msg)
  | inr _ =>
      match Server.method req, Server.bodyError req with
      | Server.OPTIONS, _ => ([], Server.Preflight)
      | _, Some msg => ([], Server.MiddlewareError msg)
      | Server.GET, None | Server.HEAD, None => served
      | _, None => ([], Server.NoRoute)
      end
  end.
Proof.
  cbv zeta. unfold Server.app, Server.routes, Server.routeTable.
  destruct (Server.corsOrigin cfg (Server.origin req)); [reflexivity |].
  destruct (Server.method req); destruct (Server.bodyError req);
    try reflexivity;
    destruct (Server.matchesRoute "/api/health" (Server.path req));
    try reflexivity;
    destruct (Server.matchesRoute "/api/userinfo" (Server.path req));
    try (apply protected_cases);
    destruct (Server.matchesRoute "/api/data" (Server.path req));
    try (apply protected_cases); reflexivity.
Qed.

(** Case analysis on everything a request is routed by. *)
Ltac route_cases req :=
  rewrite (app_cases req) in *; cbv zeta in *;
  destruct (Server.corsOrigin cfg (Server.origin req)) as [? | []];
  destruct (Server.method req);
  destruct (Server.bodyError req);
  destruct (Server.matchesRoute "/api/health" (Server.path req));
  destruct (Server.matchesRoute "/api/userinfo" (Server.path req)) eqn:?;
  destruct (Server.matchesRoute "/api/data" (Server.path req)) eqn:?;
  cbn [result trace fst snd] in *.

(** X5: the two protected handlers run only behind [authenticate]: the
    claims they work on are those of a token that [authenticate] let
    through for this very request, which came from an allowed origin as
    a [GET] or [HEAD]; and a request that is answered with a refusal
    gets the refusal of [authenticate], unchanged. *)
Theorem protected_routes_serve_authenticated_claims_only
        (req : Server.Request) :
  (forall user,
     result (app req) = Server.Userinfo user
     \/ result (app req) = Server.Data user ->
     result (authenticate (Server.authorization req)) = Server.Next user
     /\ (exists allowed,
           Server.corsOrigin cfg (Server.origin req) = inr allowed)
     /\ (Server.method req = Server.GET \/ Server.method req = Server.HEAD))
  /\ (forall status body,
        result (app req) = Server.Denied status body ->
        result (authenticate (Server.authorization req))
        = Server.Respond status body).
Proof.
  split.
  - intros user Hres. route_cases req;
      try (destruct Hres; discriminate).
    all: destruct (result (authenticate (Server.authorization req)));
      try (destruct Hres; discriminate).
    all: split; [destruct Hres as [H | H]; inversion H; reflexivity |].
    all: split; [eexists; reflexivity | auto].
  - intros status body Hres. route_cases req; try discriminate.
    all: destruct (result (authenticate (Server.authorization req)));
      try discriminate; inversion Hres; reflexivity.
Qed.

(** X6: identity work is confined to the protected routes: whenever a
    request causes a verifier call or a key lookup, it came from an
    origin the CORS gate lets pass, was a [GET] or [HEAD] whose path
    matches [/api/userinfo] or [/api/data] the way Express matches a
    route path (letter case ignored, one trailing slash let through),
    had a body, if any, that the body parser could read, and carried a
    bearer credential. Preflights, the health route, unknown paths,
    other methods, unreadable bodies and refused origins cause none. *)
Theorem only_protected_routes_do_identity_work (req : Server.Request) :
  filter Observe.isIdentityWork (trace (app req)) <> [] ->
  (exists allowed, Server.corsOrigin cfg (Server.origin req) = inr allowed)
  /\ (Server.method req = Server.GET \/ Server.method req = Server.HEAD)
  /\ (Server.matchesRoute "/api/userinfo" (Server.path req) = true
      \/ Server.matchesRoute "/api/data" (Server.path req) = true)
  /\ Server.bodyError req = None
  /\ Server.credentialSupplied (Server.authorization req) = true.
Proof.
  intros Hwork.
  assert (Hne : trace (app req) <> [])
    by (intros E; apply Hwork; rewrite E; reflexivity).
  clear Hwork. route_cases req;
    try (exfalso; apply Hne; reflexivity).
  all: rewrite authenticate_trace in Hne;
    unfold Server.credentialSupplied;
    destruct (Js.truthy_opt (Server.authorization req));
    [ | exfalso; apply Hne; reflexivity ];
    destruct (Js.startsWith (Js.show (Server.authorization req)) "Bearer ");
    [ | exfalso; apply Hne; reflexivity ].
  all: repeat split; eauto.
Qed.

End GateMore.

(** ** What the header carries *)

Lemma split_without_separator (c : ascii) (t : string) :
  Observe.lacks c t = true -> Js.split c t = [t].
Proof.
  induction t as [| d t IH]; simpl; [reflexivity |].
  intros H. apply andb_true_iff in H as [Hd Ht].
  apply negb_true_iff in Hd. rewrite Hd, (IH Ht). reflexivity.
Qed.

Lemma split_at_first_separator (c : ascii) (t rest : string) :
  Observe.lacks c t = true ->
  Js.split c (t ++ String c rest) = t :: Js.split c rest.
Proof.
  induction t as [| d t IH]; simpl.
  - intros _. rewrite Ascii.eqb_refl. reflexivity.
  - intros H. apply andb_true_iff in H as [Hd Ht].
    apply negb_true_iff in Hd. rewrite Hd, (IH Ht). reflexivity.
Qed.

(** X7: the token that is verified is the text between the first and
    the second space of the header: for a token without a space,
    ["Bearer " ++ token] gives back the token, and whatever follows a
    further space is ignored. So the header the client builds from the
    token it holds is read back by the server as that token. *)
Theorem bearer_header_round_trip (token : string) :
  Observe.lacks " "%char token = true ->
  Server.bearerToken (Some ("Bearer " ++ token)) = Some token
  /\ (forall rest,
        Server.bearerToken (Some ("Bearer " ++ token ++ " " ++ rest))
        = Some token)
  /\ (forall kc,
        EuApp.token kc = Some token ->
        Server.bearerToken (Some (EuApp.bearer kc)) = Some token).
Proof.
  intros H.
  assert (H1 : Server.bearerToken (Some ("Bearer " ++ token)) = Some token).
  { unfold Server.bearerToken. simpl Js.show.
    pose proof (split_at_first_separator " "%char "Bearer" token eq_refl)
      as E.
    simpl append in E. simpl append. rewrite E.
    rewrite (split_without_separator _ _ H). reflexivity. }
  split; [exact H1 | split].
  - intros rest. unfold Server.bearerToken. simpl Js.show.
    pose proof (split_at_first_separator " "%char "Bearer"
                  (token ++ String " " rest) eq_refl) as E.
    simpl append in E. simpl append. rewrite E.
    rewrite (split_at_first_separator _ _ _ H). reflexivity.
  - intros kc Hkc. unfold EuApp.bearer. rewrite Hkc. exact H1.
Qed.

Lemma bearer_header_witness :
  Observe.lacks " "%char "us.fresh.US-PEM" = true
  /\ Server.bearerToken (Some "Bearer us.fresh.US-PEM extra")
     = Some "us.fresh.US-PEM".
Proof.
  split; [reflexivity |].
  apply (proj1 (proj2 (bearer_header_round_trip "us.fresh.US-PEM" eq_refl))
               "extra").
Defined.

(** ** The configuration *)

Lemma or_default_truthy (a : option string) (b : string) :
  Js.truthy b = true -> Js.truthy (Js.or_default a b) = true.
Proof.
  intros Hb. unfold Js.or_default. destruct a as [s |]; [| exact Hb].
  destruct (Js.truthy s) eqn:Hs; [exact Hs | exact Hb].
Qed.

(** X8: whatever the environment holds, no setting of the server comes
    out empty, so the empty string is never an allowed origin; and a
    variable that is set to the empty string counts as one that is not
    set at all. *)
Theorem settings_are_never_empty (env : string -> option string) :
  let cfg := Server.fromEnv env in
  Forall (fun s => Js.truthy s = true)
         [Server.KEYCLOAK_URL cfg; Server.KEYCLOAK_EXTERNAL_URL cfg;
          Server.REALM cfg; Server.CORS_ORIGIN cfg; Server.REGION cfg;
          Server.CROSS_KEYCLOAK_URL cfg;
          Server.CROSS_KEYCLOAK_EXTERNAL_URL cfg; Server.CROSS_REALM cfg;
          Server.CROSS_CORS_ORIGIN cfg]
  /\ ~ In "" (Server.allowedOrigins cfg)
  /\ forall name,
       Server.fromEnv (Observe.blanked env name)
       = Server.fromEnv (Observe.unset env name).
Proof.
  cbv zeta. split; [| split].
  - repeat constructor; apply or_default_truthy; reflexivity.
  - unfold Server.allowedOrigins, Server.fromEnv; simpl.
    intros [H | [H | []]].
    + pose proof (or_default_truthy (env "CORS_ORIGIN")
                    "http://localhost:3000" eq_refl) as Ht.
      rewrite H in Ht. discriminate.
    + pose proof (or_default_truthy (env "CROSS_CORS_ORIGIN")
                    "http://localhost:3001" eq_refl) as Ht.
      rewrite H in Ht. discriminate.
  - intros name. unfold Server.fromEnv, Observe.blanked, Observe.unset.
    f_equal;
      match goal with
      | |- context [(?k =? name)%string] =>
          destruct (k =? name)%string; reflexivity
      end.
Qed.

(** ** The realm of an issuer *)

Lemma length_append (a b : string) :
  String.length (a ++ b) = (String.length a + String.length b)%nat.
Proof. induction a; simpl; [reflexivity | f_equal; assumption]. Qed.

Lemma substring_prefix (a r : string) :
  String.substring 0 (String.length a) (a ++ r) = a.
Proof.
  induction a as [| c a IH]; simpl.
  - destruct r; reflexivity.
  - f_equal. exact IH.
Qed.

Lemma drop_append (a r : string) (n : nat) :
  JsText.drop (String.length a + n) (a ++ r) = JsText.drop n r.
Proof. induction a; simpl; [reflexivity | assumption]. Qed.

Lemma splitOn_rounds_whole (rounds : nat) (sep s : string) :
  JsText.indexOf sep s = None -> JsText.splitOn_rounds rounds sep s = [s].
Proof. intros H. destruct rounds; simpl; [| rewrite H]; reflexivity. Qed.

(** An issuer that comes apart at its [/realms/] splits into its base
    URL and its realm. *)
Lemma splitOn_issuerOf (base realm : string) :
  Profile.issuerSplitsAt base realm = true ->
  JsText.splitOn "/realms/" (Server.issuerOf base realm) = [base; realm].
Proof.
  unfold Profile.issuerSplitsAt, JsText.splitOn.
  destruct (JsText.indexOf "/realms/" (Server.issuerOf base realm))
    as [i |] eqn:Hi; [| discriminate].
  destruct (JsText.indexOf "/realms/" realm) eqn:Hr; [discriminate |].
  intros Heq. apply Nat.eqb_eq in Heq. subst i.
  unfold Server.issuerOf in *.
  rewrite length_append. rewrite length_append.
  change (String.length "/realms/") with 8%nat.
  replace (String.length base + (8 + String.length realm))%nat
    with (S (String.length base + 7 + String.length realm)) by lia.
  cbn [JsText.splitOn_rounds]. rewrite Hi.
  rewrite substring_prefix.
  change (String.length "/realms/") with 8%nat.
  rewrite drop_append.
  change (JsText.drop 8 ("/realms/" ++ realm)) with realm.
  rewrite (splitOn_rounds_whole _ _ _ Hr). reflexivity.
Qed.

(** X9: taking the realm out of an issuer undoes [issuerOf]: for a base
    URL and a realm such that the first [/realms/] of the issuer is the
    one between them and the realm holds none, the text after
    [/realms/] is the realm. *)
Theorem realm_of_issuer_round_trip (base realm : string) :
  Profile.issuerSplitsAt base realm = true ->
  Profile.realmOf (Some (Server.issuerOf base realm)) = Some realm.
Proof.
  intros Hsplit. unfold Profile.realmOf.
  rewrite (splitOn_issuerOf base realm Hsplit).
  reflexivity.
Qed.

Lemma realm_of_issuer_witness :
  Profile.issuerSplitsAt "https://sso.example.org/auth" "eu-realm" = true
  /\ Profile.realmOf (Some "https://sso.example.org/auth/realms/eu-realm")
     = Some "eu-realm".
Proof.
  split; [reflexivity |].
  apply (realm_of_issuer_round_trip "https://sso.example.org/auth"
                                    "eu-realm").
  reflexivity.
Defined.

Section ShownRealm.
Context {K : Type}.
Variable cfg : Server.Config.
Variables localJwks crossJwks : Server.Resolver K.
Variable decode : string -> Server.DecodeResult.
Variable jws_verify : string -> string -> K -> string + bool.
Variable clockTimestamp : Z.

(** X10: for a configuration whose issuers come apart at their
    [/realms/], the realm that [/api/userinfo] reports for a user who
    was let through is the local realm or the cross-region realm,
    never a third. *)
Theorem reported_realm_is_a_configured_one
        (authHeader : option string) (user : Server.Payload) :
  Profile.plainIssuers cfg = true ->
  result (Server.authenticate cfg localJwks crossJwks decode jws_verify
                              clockTimestamp authHeader)
  = Server.Next user ->
  Profile.realmOf (Server.iss user) = Some (Server.REALM cfg)
  \/ Profile.realmOf (Server.iss user) = Some (Server.CROSS_REALM cfg).
Proof.
  intros Hplain Hacc. unfold Profile.plainIssuers in Hplain.
  apply andb_true_iff in Hplain as [Hplain H4].
  apply andb_true_iff in Hplain as [Hplain H3].
  apply andb_true_iff in Hplain as [H1 H2].
  apply authenticate_accepts_exactly_valid_tokens in Hacc
    as (jwtString & header & key & _ & _ & _ & Hi).
  apply invalid_issuer_spec in Hi as [i [Hiss Hin]].
  rewrite Hiss. unfold Server.ACCEPTED_ISSUERS in Hin.
  destruct Hin as [<- | [<- | [<- | [<- | []]]]].
  - left. unfold Profile.realmOf. rewrite (splitOn_issuerOf _ _ H1).
    reflexivity.
  - left. unfold Profile.realmOf. rewrite (splitOn_issuerOf _ _ H2).
    reflexivity.
  - right. unfold Profile.realmOf. rewrite (splitOn_issuerOf _ _ H3).
    reflexivity.
  - right. unfold Profile.realmOf. rewrite (splitOn_issuerOf _ _ H4).
    reflexivity.
Qed.

End ShownRealm.

Lemma reported_realm_witness :
  Profile.plainIssuers Server.defaultConfig = true
  /\ (Profile.realmOf (Server.iss (Fixture.claims Fixture.euIssuer 2000))
      = Some (Server.REALM Server.defaultConfig)
      \/ Profile.realmOf (Server.iss (Fixture.claims Fixture.euIssuer 2000))
         = Some (Server.CROSS_REALM Server.defaultConfig)).
Proof.
  split; [reflexivity |].
  apply (reported_realm_is_a_configured_one
           Server.defaultConfig Fixture.localJwks Fixture.crossJwks
           Fixture.decode Fixture.jws_verify Fixture.clock
           (Some "Bearer eu.fresh.EU-PEM")).
  - reflexivity.
  - reflexivity.
Defined.

(** * Properties of the landing page *)

(** ** The pattern matcher *)

Lemma append_empty (u v : string) : u ++ v = "" -> u = "" /\ v = "".
Proof. destruct u; simpl; [auto | discriminate]. Qed.

Lemma Matches_nullable (r : RegExp.re) :
  RegExp.Matches r "" <-> RegExp.nullable r = true.
Proof.
  split.
  - intros H. remember "" as w eqn:Hw.
    induction H; simpl; try reflexivity; try discriminate.
    + apply append_empty in Hw as [-> ->].
      rewrite IHMatches1, IHMatches2; reflexivity.
    + rewrite IHMatches by assumption. reflexivity.
    + rewrite IHMatches by assumption. apply orb_true_r.
  - induction r; simpl; intros H; try discriminate.
    + constructor.
    + apply andb_true_iff in H as [H1 H2].
      change "" with ("" ++ ""). constructor; auto.
    + apply orb_true_iff in H as [H | H];
        [apply RegExp.MAltL | apply RegExp.MAltR]; auto.
    + constructor.
Qed.

Lemma Matches_deriv (r : RegExp.re) (c : ascii) (s : string) :
  RegExp.Matches (RegExp.deriv c r) s <-> RegExp.Matches r (String c s).
Proof.
  split.
  - revert s. induction r; simpl; intros s H.
    + inversion H.
    + inversion H.
    + destruct (p c) eqn:Hp; inversion H; subst. constructor. exact Hp.
    + destruct (RegExp.nullable r1) eqn:Hn.
      * inversion H; subst.
        -- match goal with
           | Hs : RegExp.Matches (RegExp.Seq _ _) _ |- _ =>
               inversion Hs; subst
           end.
           change (String c (u ++ v)) with (String c u ++ v).
           constructor; auto.
        -- change (String c s) with ("" ++ String c s).
           constructor; [apply Matches_nullable; exact Hn | auto].
      * inversion H; subst.
        change (String c (u ++ v)) with (String c u ++ v).
        constructor; auto.
    + inversion H; subst;
        [apply RegExp.MAltL | apply RegExp.MAltR]; auto.
    + inversion H; subst.
      change (String c (u ++ v)) with (String c u ++ v).
      constructor; auto.
  - intros H. remember (String c s) as w eqn:Hw. revert c s Hw.
    induction H; intros c0 s0 Hw; simpl; try discriminate.
    + inversion Hw; subst. rewrite H. constructor.
    + destruct u as [| d u'].
      * simpl in Hw. subst v.
        assert (Hn : RegExp.nullable r = true)
          by (apply Matches_nullable; assumption).
        rewrite Hn. apply RegExp.MAltR. apply IHMatches2. reflexivity.
      * simpl in Hw. inversion Hw; subst.
        assert (Hd : RegExp.Matches (RegExp.Seq (RegExp.deriv c0 r) s) (u' ++ v))
          by (constructor; [apply IHMatches1; reflexivity | assumption]).
        destruct (RegExp.nullable r); [apply RegExp.MAltL |]; exact Hd.
    + apply RegExp.MAltL. apply IHMatches. exact Hw.
    + apply RegExp.MAltR. apply IHMatches. exact Hw.
    + destruct u as [| d u'].
      * simpl in Hw. apply IHMatches2. exact Hw.
      * simpl in Hw. inversion Hw; subst.
        constructor; [apply IHMatches1; reflexivity | assumption].
Qed.

(** The matcher decides the pattern. *)
Lemma test_Matches (r : RegExp.re) (s : string) :
  RegExp.test r s = true <-> RegExp.Matches r s.
Proof.
  revert r. induction s as [| c s IH]; intros r; simpl.
  - symmetry. apply Matches_nullable.
  - rewrite IH. apply Matches_deriv.
Qed.

Lemma Matches_Seq (r s : RegExp.re) (w : string) :
  RegExp.Matches (RegExp.Seq r s) w <->
  exists u v, w = u ++ v /\ RegExp.Matches r u /\ RegExp.Matches s v.
Proof.
  split.
  - intros H; inversion H; subst; eauto.
  - intros (u & v & -> & Hu & Hv). constructor; assumption.
Qed.

Lemma Matches_Class (p : ascii -> bool) (w : string) :
  RegExp.Matches (RegExp.Class p) w <->
  exists c, w = String c "" /\ p c = true.
Proof.
  split.
  - intros H; inversion H; subst; eauto.
  - intros (c & -> & Hc). constructor; exact Hc.
Qed.

Lemma Matches_Star_Class (p : ascii -> bool) (w : string) :
  RegExp.Matches (RegExp.Star (RegExp.Class p)) w <->
  forall c, In c (list_ascii_of_string w) -> p c = true.
Proof.
  split.
  - intros H. remember (RegExp.Star (RegExp.Class p)) as r eqn:Hr.
    induction H; try discriminate.
    + intros c [].
    + inversion Hr; subst r. inversion H; subst.
      intros d [<- | Hd]; [assumption |].
      apply IHMatches2; [reflexivity | exact Hd].
  - induction w as [| c w IH]; intros H.
    + constructor.
    + change (String c w) with (String c "" ++ w).
      constructor.
      * constructor. apply H. left; reflexivity.
      * apply IH. intros d Hd. apply H. right; exact Hd.
Qed.

Lemma Matches_Plus_Class (p : ascii -> bool) (w : string) :
  RegExp.Matches (RegExp.Plus (RegExp.Class p)) w <->
  w <> "" /\ forall c, In c (list_ascii_of_string w) -> p c = true.
Proof.
  unfold RegExp.Plus. rewrite Matches_Seq. split.
  - intros (u & v & -> & Hu & Hv).
    apply Matches_Class in Hu as (c & -> & Hc).
    split; [discriminate |].
    intros d [<- | Hd]; [exact Hc |].
    exact (proj1 (Matches_Star_Class p v) Hv d Hd).
  - intros [Hne H]. destruct w as [| c w]; [contradiction |].
    exists (String c ""), w. split; [reflexivity | split].
    + constructor. apply H. left; reflexivity.
    + apply Matches_Star_Class. intros d Hd. apply H. right; exact Hd.
Qed.

Lemma isChar_spec (d c : ascii) : Landing.isChar d c = true <-> c = d.
Proof. unfold Landing.isChar. apply Ascii.eqb_eq. Qed.

(** The texts the pattern of the e-mail field describes. *)
Lemma emailPattern_Matches (s : string) :
  RegExp.Matches Landing.emailPattern s <->
  exists l a b,
    s = l ++ "@" ++ a ++ "." ++ b
    /\ Landing.addressPart l
    /\ Landing.addressPart a
    /\ Landing.addressPart b.
Proof.
  unfold Landing.emailPattern, Landing.addressPart.
  split.
  - intros H.
    apply Matches_Seq in H as (l & w1 & -> & Hl & H).
    apply Matches_Seq in H as (at1 & w2 & -> & Hat & H).
    apply Matches_Seq in H as (a & w3 & -> & Ha & H).
    apply Matches_Seq in H as (dot & b & -> & Hdot & Hb).
    apply Matches_Class in Hat as (c & -> & Hc).
    apply isChar_spec in Hc; subst c.
    apply Matches_Class in Hdot as (c & -> & Hc).
    apply isChar_spec in Hc; subst c.
    apply Matches_Plus_Class in Hl, Ha, Hb.
    exists l, a, b. auto.
  - intros (l & a & b & -> & Hl & Ha & Hb).
    apply Matches_Seq. exists l, ("@" ++ a ++ "." ++ b).
    split; [reflexivity | split; [apply Matches_Plus_Class; exact Hl |]].
    apply Matches_Seq. exists "@", (a ++ "." ++ b).
    split; [reflexivity | split; [constructor; reflexivity |]].
    apply Matches_Seq. exists a, ("." ++ b).
    split; [reflexivity | split; [apply Matches_Plus_Class; exact Ha |]].
    apply Matches_Seq. exists ".", b.
    split; [reflexivity | split; [constructor; reflexivity |]].
    apply Matches_Plus_Class; exact Hb.
Qed.

(** X11: on ASCII text, the pattern of the e-mail field passes exactly
    the texts of the form [local@domain.rest] in which each of the
    three parts has one character or more and none of them is white
    space or a further [@]. *)
Theorem email_pattern_passes_exactly_addresses (s : string) :
  Js.isAscii s = true ->
  (RegExp.test Landing.emailPattern s = true <->
   exists l a b,
     s = l ++ "@" ++ a ++ "." ++ b
     /\ Landing.addressPart l
     /\ Landing.addressPart a
     /\ Landing.addressPart b).
Proof.
  intros _. rewrite test_Matches. apply emailPattern_Matches.
Qed.

(** ** Trimming *)

Lemma blank_append (a b : string) :
  Js.blank (a ++ b) = Js.blank a && Js.blank b.
Proof.
  induction a as [| c a IH]; simpl; [reflexivity |].
  rewrite IH, andb_assoc. reflexivity.
Qed.

Lemma trimStart_blank (s : string) :
  Js.blank s = true -> JsText.trimStart s = "".
Proof.
  induction s as [| c s IH]; simpl; [reflexivity |].
  intros H. apply andb_true_iff in H as [Hc Hs]. rewrite Hc. auto.
Qed.

Lemma trimStart_after_blank (p s : string) :
  Js.blank p = true -> JsText.trimStart (p ++ s) = JsText.trimStart s.
Proof.
  induction p as [| c p IH]; simpl; [reflexivity |].
  intros H. apply andb_true_iff in H as [Hc Hp]. rewrite Hc. auto.
Qed.

Lemma trimStart_before (e q : string) :
  Js.blank e = false ->
  JsText.trimStart (e ++ q) = JsText.trimStart e ++ q.
Proof.
  induction e as [| c e IH]; simpl; [discriminate |].
  destruct (Js.is_space c); simpl; [exact IH | reflexivity].
Qed.

Lemma trimEnd_blank (s : string) :
  Js.blank s = true -> JsText.trimEnd s = "".
Proof. destruct s; simpl; [reflexivity | intros ->; reflexivity]. Qed.

Lemma trimEnd_before_blank (s q : string) :
  Js.blank q = true -> JsText.trimEnd (s ++ q) = JsText.trimEnd s.
Proof.
  intros Hq. induction s as [| c s IH].
  - simpl. apply trimEnd_blank, Hq.
  - change (String c s ++ q) with (String c (s ++ q)).
    cbn [JsText.trimEnd].
    change (String c (s ++ q)) with (String c s ++ q).
    rewrite blank_append, Hq, andb_true_r, IH. reflexivity.
Qed.

Lemma trimStart_blank_iff (s : string) :
  Js.blank (JsText.trimStart s) = Js.blank s.
Proof.
  induction s as [| c s IH]; simpl; [reflexivity |].
  destruct (Js.is_space c) eqn:Hc; simpl; [exact IH |].
  rewrite Hc. reflexivity.
Qed.

(** White space around a text does not change what it is trimmed to. *)
Lemma trim_padding (p e q : string) :
  Js.blank p = true -> Js.blank q = true ->
  JsText.trim (p ++ e ++ q) = JsText.trim e.
Proof.
  intros Hp Hq. unfold JsText.trim.
  rewrite (trimStart_after_blank _ _ Hp).
  destruct (Js.blank e) eqn:He.
  - rewrite !trimStart_blank; [reflexivity | exact He |].
    rewrite blank_append, He, Hq. reflexivity.
  - rewrite (trimStart_before _ _ He). apply trimEnd_before_blank, Hq.
Qed.

(** ** The form *)

(** X12: on ASCII input, submitting the form starts a login only for
    an address [local@domain.rest]: the one thing [handleSubmit] ever
    does is one login whose [loginHint] is the trimmed input (and which
    names no identity provider), and it does so exactly when the trimmed
    input is such an address, clearing the error text. Otherwise nothing
    is sent and an error text is shown, the one for a missing address
    when the input is blank. White space around the input changes
    nothing. *)
Theorem landing_form_logs_in_with_an_address_only (st : Landing.State) :
  Js.isAscii (Landing.email st) = true ->
  let trimmed := JsText.trim (Landing.email st) in
  let isAddress :=
    exists l a b,
      trimmed = l ++ "@" ++ a ++ "." ++ b
      /\ Landing.addressPart l
      /\ Landing.addressPart a
      /\ Landing.addressPart b in
  (isAddress ->
   Landing.handleSubmit st
   = ([EuApp.KeycloakLogin
         (Some {| EuApp.idpHint := None;
                  EuApp.loginHint := Some trimmed |})],
      {| Landing.email := Landing.email st; Landing.error := "" |}))
  /\ (~ isAddress ->
      trace (Landing.handleSubmit st) = []
      /\ Landing.email (result (Landing.handleSubmit st)) = Landing.email st
      /\ Landing.error (result (Landing.handleSubmit st))
         = if Js.blank (Landing.email st)
           then "Please enter your email address."
           else "Please enter a valid email address.")
  /\ (forall p q,
        Js.isAscii p = true -> Js.isAscii q = true ->
        Js.blank p = true -> Js.blank q = true ->
        let padded := {| Landing.email := p ++ Landing.email st ++ q;
                         Landing.error := Landing.error st |} in
        trace (Landing.handleSubmit padded)
        = trace (Landing.handleSubmit st)
        /\ Landing.error (result (Landing.handleSubmit padded))
           = Landing.error (result (Landing.handleSubmit st))).
Proof.
  intros _. cbv zeta.
  assert (Hblank : Js.truthy (JsText.trim (Landing.email st))
                   = negb (Js.blank (Landing.email st))).
  { unfold JsText.trim. rewrite <- trimStart_blank_iff.
    destruct (JsText.trimStart (Landing.email st)) as [| c s] eqn:E;
      [reflexivity |].
    cbn [JsText.trimEnd].
    destruct (Js.blank (String c s)); reflexivity. }
  split; [| split].
  - intros Haddr.
    pose proof (proj2 (emailPattern_Matches _) Haddr) as Htest.
    apply test_Matches in Htest.
    unfold Landing.handleSubmit. rewrite Htest.
    destruct Haddr as (l & a & b & Heq & [Hl _] & _).
    assert (Ht : Js.truthy (JsText.trim (Landing.email st)) = true).
    { rewrite Heq. destruct l; [contradiction | reflexivity]. }
    rewrite Ht. unfold EuApp.handleLogin. simpl Js.truthy_opt.
    rewrite Ht. reflexivity.
  - intros Hno. unfold Landing.handleSubmit. rewrite Hblank.
    destruct (Js.blank (Landing.email st)); simpl;
      [repeat split |].
    destruct (RegExp.test Landing.emailPattern
                          (JsText.trim (Landing.email st))) eqn:Htest.
    + exfalso. apply Hno.
      apply emailPattern_Matches, test_Matches. exact Htest.
    + repeat split.
  - intros p q _ _ Hp Hq. unfold Landing.handleSubmit. cbn [Landing.email].
    rewrite (trim_padding _ _ _ Hp Hq).
    destruct (negb (Js.truthy (JsText.trim (Landing.email st))));
      [split; reflexivity |].
    destruct (negb (RegExp.test Landing.emailPattern
                                (JsText.trim (Landing.email st))));
      split; reflexivity.
Qed.

Lemma landing_form_witness :
  Js.isAscii "  alice@example.com " = true
  /\ JsText.trim "  alice@example.com " = "alice" ++ "@" ++ "example" ++ "." ++ "com"
  /\ Landing.handleSubmit {| Landing.email := "  alice@example.com ";
                             Landing.error := "Please enter your email address." |}
     = ([EuApp.KeycloakLogin
           (Some {| EuApp.idpHint := None;
                    EuApp.loginHint := Some "alice@example.com" |})],
        {| Landing.email := "  alice@example.com "; Landing.error := "" |}).
Proof.
  split; [reflexivity | split; [reflexivity |]].
  apply (proj1 (landing_form_logs_in_with_an_address_only
                  {| Landing.email := "  alice@example.com ";
                     Landing.error := "Please enter your email address." |}
                  eq_refl)).
  exists "alice", "example", "com".
  split; [reflexivity |].
  unfold Landing.addressPart.
  repeat split; try discriminate;
    intros c Hc; simpl in Hc;
    repeat (destruct Hc as [<- | Hc]; [reflexivity |]); destruct Hc.
Defined.


(** * Further properties of the client *)

(** X13: this page reads a brokered query as it is written: for an
    alias that is not empty and holds no [&], [+] or [%], the query
    [?idp_hint=alias] yields that alias, also when more parameters
    follow (a later [idp_hint] is ignored); and the page, loaded with it
    and finding itself unauthenticated, logs in at that alias. *)
Theorem hint_query_is_read_as_written (alias : string) :
  Observe.plainValue alias = true ->
  alias <> "" ->
  EuApp.plainQuery ("?idp_hint=" ++ alias) = true
  /\ EuApp.get (EuApp.parseSearch ("?idp_hint=" ++ alias)) "idp_hint"
     = Some alias
  /\ (forall rest,
        EuApp.plainQuery rest = true ->
        EuApp.plainQuery ("?idp_hint=" ++ alias ++ "&" ++ rest) = true
        /\ EuApp.get
             (EuApp.parseSearch ("?idp_hint=" ++ alias ++ "&" ++ rest))
             "idp_hint"
           = Some alias)
  /\ EuApp.useEffect ("?idp_hint=" ++ alias) (EuApp.InitResolved false)
                     EuApp.pageLoad
     = ([EuApp.KeycloakInit;
         EuApp.KeycloakLogin
           (Some {| EuApp.idpHint := Some alias;
                    EuApp.loginHint := None |})],
        {| EuApp.authenticated := false;
           EuApp.initialized := true;
           EuApp.initCalled := true |}).
Proof.
  intros Hplain Hne.
  assert (Hq : EuApp.plainQuery alias = true).
  { unfold Observe.plainValue in Hplain.
    apply andb_true_iff in Hplain as [Hplain Hpct].
    apply andb_true_iff in Hplain as [_ Hplus].
    clear Hne. induction alias as [| c alias IH]; [reflexivity |].
    simpl in *. apply andb_true_iff in Hpct as [-> Hpct].
    apply andb_true_iff in Hplus as [-> Hplus].
    simpl. apply IH; assumption. }
  unfold Observe.plainValue in Hplain.
  apply andb_true_iff in Hplain as [Hplain _].
  apply andb_true_iff in Hplain as [Hamp _].
  assert (Hget : EuApp.get (EuApp.parseSearch ("?idp_hint=" ++ alias))
                           "idp_hint" = Some alias).
  { unfold EuApp.parseSearch. simpl EuApp.stripQuestionMark.
    rewrite split_without_separator
      by (simpl; rewrite Hamp; reflexivity).
    reflexivity. }
  split; [exact Hq | split; [exact Hget | split]].
  - intros rest Hrest. split.
    + simpl. clear Hne Hget Hamp.
      induction alias as [| c alias IH]; simpl in *; [exact Hrest |].
      apply andb_true_iff in Hq as [Hc Hq]. rewrite Hc. simpl.
      apply IH, Hq.
    + unfold EuApp.parseSearch. simpl EuApp.stripQuestionMark.
      pose proof (split_at_first_separator "&"%char ("idp_hint=" ++ alias)
                    rest) as E.
      simpl in E. rewrite Hamp in E. simpl. rewrite (E eq_refl).
      reflexivity.
  - unfold EuApp.useEffect. simpl EuApp.initCalled. cbv iota.
    rewrite Hget. destruct alias; [contradiction | reflexivity].
Qed.

Lemma hint_query_witness :
  Observe.plainValue "us-keycloak-idp" = true
  /\ EuApp.get (EuApp.parseSearch
                  "?idp_hint=us-keycloak-idp&idp_hint=other&lang=en")
               "idp_hint"
     = Some "us-keycloak-idp".
Proof.
  split; [reflexivity |].
  assert (Hne : "us-keycloak-idp" <> "") by discriminate.
  apply (proj1 (proj2 (proj2 (hint_query_is_read_as_written
                                "us-keycloak-idp" eq_refl Hne)))
               "idp_hint=other&lang=en" eq_refl).
Defined.

(** A token update sends one refresh request or none. *)
Lemma updateToken_trace (minValidity now : Z)
      (response : EuApp.RefreshResponse) (kc : EuApp.Keycloak) :
  trace (EuApp.updateToken minValidity now response kc) = []
  \/ exists rt,
       trace (EuApp.updateToken minValidity now response kc)
       = [EuApp.RefreshRequest rt].
Proof.
  unfold EuApp.updateToken.
  destruct (EuApp.refreshToken kc) as [rt |]; [| left; reflexivity].
  destruct (Js.truthy rt); [| left; reflexivity]. simpl.
  match goal with
  | |- context [if ?b then _ else _] => destruct b
  end; [| left; reflexivity].
  right. exists rt. destruct response; reflexivity.
Qed.

(** X14: whatever the session and however the network answers, a call
    of either API panel sends at most one refresh request and at most
    one API request, the refresh first, the API request to the panel's
    own base URL and endpoint; when it is over the panel's loading flag
    is off again and its result pane shows something; the pane and flag
    of the other button, the other panel and the page state are as they
    were. *)
Theorem api_call_leaves_the_panel_settled
        (op : EuApp.Operation) (key : EuApp.ApiKey) (now : Z)
        (response : EuApp.RefreshResponse) (fetched : EuApp.FetchResult)
        (c : EuApp.Client) :
  let run := EuApp.perform op key now response fetched c in
  let url := EuApp.baseOf op ++ "/api/" ++ EuApp.endpointOf key in
  (exists refreshes requests,
     trace run = (refreshes ++ requests)%list
     /\ (refreshes = [] \/ exists rt, refreshes = [EuApp.RefreshRequest rt])
     /\ (requests = [] \/ exists h, requests = [EuApp.Fetch url h]))
  /\ Observe.loadingOf key (EuApp.panesOf op (result run)) = false
  /\ EuApp.shownBy key (EuApp.panesOf op (result run)) <> EuApp.Blank
  /\ EuApp.shownBy (Observe.otherKey key) (EuApp.panesOf op (result run))
     = EuApp.shownBy (Observe.otherKey key) (EuApp.panesOf op c)
  /\ Observe.loadingOf (Observe.otherKey key)
                       (EuApp.panesOf op (result run))
     = Observe.loadingOf (Observe.otherKey key) (EuApp.panesOf op c)
  /\ EuApp.panesOf (Observe.otherOperation op) (result run)
     = EuApp.panesOf (Observe.otherOperation op) c
  /\ EuApp.app (result run) = EuApp.app c.
Proof.
  cbv zeta.
  pose proof (updateToken_trace 30 now response (EuApp.keycloak c)) as Ht.
  destruct op; unfold EuApp.perform, EuApp.callApi, EuApp.callCrossApi;
    destruct (EuApp.updateToken 30 now response (EuApp.keycloak c))
      as [t [kc [err | refreshed]]];
    unfold trace in Ht; simpl fst in Ht.
  all: try (destruct fetched as [msg | [|] st [m | x]]).
  all: unfold bind, ret, emit, trace, result; simpl.
  all: split;
    [ exists t; eexists; split; [reflexivity |]; split; [exact Ht |]; eauto
    | destruct key; simpl; repeat split; discriminate ].
Qed.

(** X15: the mount effect, from any page state, for a query that needs
    no decoding (no percent escape, no [+]). Once it has run it
    never runs again. When it runs, [init] is called first, the page
    ends up initialized (it leaves its loading screen however [init]
    settles) and counts as authenticated exactly as [init] said. A
    login is started by it only when [init] resolved to "not
    authenticated" and the query names a non-empty [idp_hint]; that
    login goes to the named provider, carries no login hint, and leaves
    the page unauthenticated meanwhile. It never logs out. *)
Theorem mount_effect_discipline
        (search : string) (outcome : EuApp.InitOutcome)
        (st : EuApp.AppState) :
  EuApp.plainQuery search = true ->
  let run := EuApp.useEffect search outcome st in
  (EuApp.initCalled st = true -> run = ([], st))
  /\ (EuApp.initCalled st = false ->
      (exists rest, trace run = EuApp.KeycloakInit :: rest)
      /\ EuApp.initCalled (result run) = true
      /\ EuApp.initialized (result run) = true
      /\ EuApp.render (result run) <> EuApp.Loading
      /\ forall auth,
           outcome = EuApp.InitResolved auth ->
           EuApp.authenticated (result run) = auth)
  /\ (forall options,
        In (EuApp.KeycloakLogin options) (trace run) ->
        outcome = EuApp.InitResolved false
        /\ EuApp.authenticated (result run) = false
        /\ exists hint,
             hint <> ""
             /\ EuApp.get (EuApp.parseSearch search) "idp_hint" = Some hint
             /\ options = Some {| EuApp.idpHint := Some hint;
                                  EuApp.loginHint := None |})
  /\ ~ In EuApp.KeycloakLogout (trace run).
Proof.
  intros _. cbv zeta. unfold EuApp.useEffect.
  destruct (EuApp.initCalled st) eqn:Hcalled;
    [| destruct outcome as [[|] | err]; simpl;
       [ | destruct (EuApp.get (EuApp.parseSearch search) "idp_hint")
             as [[| h hint'] |]; simpl | ] ].
  all: split; [intros H; try discriminate; reflexivity |].
  all: split;
    [ intros H; try discriminate;
      repeat match goal with |- _ /\ _ => split end;
      try reflexivity; try (eexists; reflexivity);
      match goal with
      | |- _ <> _ =>
          unfold EuApp.render; simpl;
          try destruct (EuApp.authenticated st); discriminate
      | |- forall auth, _ => intros auth E; inversion E; reflexivity
      end |].
  all: split;
    [ intros options Hin; simpl in Hin;
      repeat (destruct Hin as [Hin | Hin]; try discriminate);
      try contradiction
    | intros Hin; simpl in Hin;
      repeat (destruct Hin as [Hin | Hin]; try discriminate);
      contradiction ].
  inversion Hin; subst options.
  split; [reflexivity | split; [reflexivity |]].
  exists (String h hint'). split; [discriminate | split; reflexivity].
Qed.

Lemma mount_effect_witness :
  EuApp.plainQuery "" = true
  /\ EuApp.initCalled EuApp.pageLoad = false
  /\ EuApp.render
       (result (EuApp.useEffect "" (EuApp.InitRejected "Timeout")
                                EuApp.pageLoad))
     <> EuApp.Loading.
Proof.
  split; [reflexivity | split; [reflexivity |]].
  apply (proj1 (proj2 (mount_effect_discipline
                         "" (EuApp.InitRejected "Timeout") EuApp.pageLoad
                         eq_refl))
               eq_refl).
Defined.

(** ** The name shown *)

Lemma blank_trimEnd (s : string) :
  Js.blank (JsText.trimEnd s) = Js.blank s.
Proof.
  induction s as [| c s IH]; [reflexivity |].
  cbn [JsText.trimEnd].
  destruct (Js.blank (String c s)) eqn:Hb; [reflexivity |].
  simpl. rewrite IH. exact Hb.
Qed.

Lemma trimEnd_idempotent (s : string) :
  JsText.trimEnd (JsText.trimEnd s) = JsText.trimEnd s.
Proof.
  induction s as [| c s IH]; [reflexivity |].
  cbn [JsText.trimEnd].
  destruct (Js.blank (String c s)) eqn:Hb; [reflexivity |].
  cbn [JsText.trimEnd].
  replace (Js.blank (String c (JsText.trimEnd s))) with false.
  - rewrite IH. reflexivity.
  - symmetry. simpl. rewrite blank_trimEnd. exact Hb.
Qed.

Lemma trimStart_tight (s : string) :
  JsText.trimStart (JsText.trimEnd (JsText.trimStart s))
  = JsText.trimEnd (JsText.trimStart s).
Proof.
  induction s as [| c s IH]; [reflexivity |].
  simpl. destruct (Js.is_space c) eqn:Hc; [exact IH |].
  cbn [JsText.trimEnd]. simpl Js.blank. rewrite Hc. simpl.
  rewrite Hc. reflexivity.
Qed.

Lemma trim_idempotent (s : string) :
  JsText.trim (JsText.trim s) = JsText.trim s.
Proof.
  unfold JsText.trim. rewrite trimStart_tight. apply trimEnd_idempotent.
Qed.

(** X16: the full name shown for a user is the [name] claim when there
    is one. When there is none it is put together from the given and
    the family name and, for names in ASCII, carries no white space at
    either end: with the family name missing it is the trimmed given
    name, with the given name missing the trimmed family name, with both
    missing empty. *)
Theorem full_name_has_no_loose_ends
        (name given_name family_name : option string) :
  (Js.truthy_opt name = true ->
   Profile.fullName name given_name family_name = Js.show name)
  /\ (Js.truthy_opt name = false ->
      Js.isAscii (Js.or_default given_name "") = true ->
      Js.isAscii (Js.or_default family_name "") = true ->
      JsText.trim (Profile.fullName name given_name family_name)
      = Profile.fullName name given_name family_name
      /\ (Js.truthy_opt family_name = false ->
          Profile.fullName name given_name family_name
          = JsText.trim (Js.or_default given_name ""))
      /\ (Js.truthy_opt given_name = false ->
          Profile.fullName name given_name family_name
          = JsText.trim (Js.or_default family_name ""))).
Proof.
  unfold Profile.fullName. split; intros Hn; rewrite Hn; [reflexivity |].
  intros _ _. split; [apply trim_idempotent | split].
  - intros Hf.
    assert (E : Js.or_default family_name "" = "").
    { destruct family_name as [f |]; simpl in *; [rewrite Hf |];
        reflexivity. }
    rewrite E.
    change (Js.or_default given_name "" ++ " " ++ "")
      with ("" ++ Js.or_default given_name "" ++ " ").
    apply trim_padding; reflexivity.
  - intros Hg.
    assert (E : Js.or_default given_name "" = "").
    { destruct given_name as [g |]; simpl in *; [rewrite Hg |];
        reflexivity. }
    rewrite E.
    replace ("" ++ " " ++ Js.or_default family_name "")
      with (" " ++ Js.or_default family_name "" ++ "").
    + apply trim_padding; reflexivity.
    + simpl. f_equal. clear. induction (Js.or_default family_name "");
        simpl; [reflexivity | f_equal; assumption].
Qed.

Lemma full_name_witness :
  Js.truthy_opt None = false
  /\ Profile.fullName None (Some "Ada") None = JsText.trim "Ada".
Proof.
  split; [reflexivity |].
  apply (proj1 (proj2 (proj2 (full_name_has_no_loose_ends
                                None (Some "Ada") None)
                             eq_refl eq_refl eq_refl))).
  reflexivity.
Defined.

(** * The server over time and across regions *)

(** X17: the times at which a token is let through form an interval:
    let through at an earlier and at a later time, with everything else
    unchanged, it is let through at every time in between. *)
Theorem validity_period_is_an_interval
        {K : Type} (cfg : Server.Config)
        (localJwks crossJwks : Server.Resolver K)
        (decode : string -> Server.DecodeResult)
        (jws_verify : string -> string -> K -> string + bool)
        (earlier now later : Z)
        (authHeader : option string) (user : Server.Payload) :
  earlier <= now <= later ->
  result (Server.authenticate cfg localJwks crossJwks decode jws_verify
                              earlier authHeader) = Server.Next user ->
  result (Server.authenticate cfg localJwks crossJwks decode jws_verify
                              later authHeader) = Server.Next user ->
  result (Server.authenticate cfg localJwks crossJwks decode jws_verify
                              now authHeader) = Server.Next user.
Proof.
  intros [Hle1 Hle2] H1 H2.
  apply authenticate_accepts_exactly_valid_tokens in H1
    as (jwtString & header & key & Hsc & Hn1 & _ & Hi).
  apply authenticate_accepts_exactly_valid_tokens in H2
    as (_ & _ & _ & _ & _ & He2 & _).
  apply authenticate_accepts_exactly_valid_tokens.
  exists jwtString, header, key.
  split; [exact Hsc | split; [| split; [| exact Hi]]].
  - unfold Server.nbfError in *. destruct (Server.nbf user) as [| n |];
      try assumption.
    destruct (Z.gtb_spec n earlier); [discriminate |].
    destruct (Z.gtb_spec n now); [lia | reflexivity].
  - unfold Server.expError in *. destruct (Server.exp user) as [| e |];
      try assumption.
    destruct (Z.geb_spec later e); [discriminate |].
    destruct (Z.geb_spec now e); [lia | reflexivity].
Qed.

Lemma validity_period_witness :
  900 <= 1000 <= 1999
  /\ result (Server.authenticate Server.defaultConfig Fixture.localJwks
               Fixture.crossJwks Fixture.decode Fixture.jws_verify 1000
               (Some "Bearer us.fresh.US-PEM"))
     = Server.Next (Fixture.claims Fixture.usIssuer 2000).
Proof.
  assert (H : 900 <= 1000 <= 1999) by lia.
  split; [exact H |].
  apply (validity_period_is_an_interval
           Server.defaultConfig Fixture.localJwks Fixture.crossJwks
           Fixture.decode Fixture.jws_verify 900 1000 1999
           (Some "Bearer us.fresh.US-PEM")
           (Fixture.claims Fixture.usIssuer 2000) H);
    reflexivity.
Defined.

(** X18: a token whose key the local client has is handled without the
    peer region: answer and trace are the same whatever the
    cross-region client would say, be it unreachable. *)
Theorem local_tokens_do_not_depend_on_the_peer
        {K : Type} (cfg : Server.Config)
        (localJwks crossJwks crossJwks' : Server.Resolver K)
        (decode : string -> Server.DecodeResult)
        (jws_verify : string -> string -> K -> string + bool)
        (clockTimestamp : Z) (authHeader : option string) :
  (forall header payload,
     decode (Js.show (Server.bearerToken authHeader))
     = Server.Decoded header payload ->
     exists sk, localJwks (Server.kid header) = inr sk) ->
  Server.authenticate cfg localJwks crossJwks decode jws_verify
                      clockTimestamp authHeader
  = Server.authenticate cfg localJwks crossJwks' decode jws_verify
                        clockTimestamp authHeader.
Proof.
  intros Hlocal. unfold Server.authenticate.
  destruct (negb (Js.truthy_opt authHeader) || _); [reflexivity |].
  f_equal. unfold Server.verify.
  destruct (negb (Js.truthy_opt _)); [reflexivity |].
  destruct (negb (Nat.eqb _ 3)); [reflexivity |].
  destruct (decode (Js.show (Server.bearerToken authHeader)))
    as [msg | | header payload] eqn:Hdec; try reflexivity.
  destruct (Hlocal header payload eq_refl) as [sk Hsk].
  rewrite !getKey_cases, Hsk. reflexivity.
Qed.

Lemma local_tokens_witness :
  Fixture.localJwks (Some "us-1") = inr Fixture.usKey
  /\ Server.authenticate Server.defaultConfig Fixture.localJwks
       Fixture.crossJwks Fixture.decode Fixture.jws_verify Fixture.clock
       (Some "Bearer us.fresh.US-PEM")
     = Server.authenticate Server.defaultConfig Fixture.localJwks
         (Server.keySetResolver (inl "connect ECONNREFUSED"))
         Fixture.decode Fixture.jws_verify Fixture.clock
         (Some "Bearer us.fresh.US-PEM").
Proof.
  split; [reflexivity |].
  apply local_tokens_do_not_depend_on_the_peer.
  intros header payload H. vm_compute in H.
  inversion H; subst. exists Fixture.usKey. reflexivity.
Defined.

(** * The further properties at work on the small deployment *)

Lemma valid_token_witness :
  Fixture.jws_verify "eu.fresh.EU-PEM" "RS256" "EU-PEM" = inr true
  /\ result (Fixture.authenticate (Some "Bearer eu.fresh.EU-PEM"))
     = Server.Next (Fixture.claims Fixture.euIssuer 2000).
Proof.
  split; [reflexivity |].
  apply (proj2 (accepted_exactly_when_every_rule_holds
                  Server.defaultConfig Fixture.localJwks Fixture.crossJwks
                  Fixture.decode Fixture.jws_verify Fixture.clock
                  (Some "Bearer eu.fresh.EU-PEM")
                  (Fixture.claims Fixture.euIssuer 2000))).
  exists "Bearer eu.fresh.EU-PEM", "eu.fresh.EU-PEM",
         (Fixture.rs256 "eu-1"), "EU-PEM".
  split; [reflexivity |]. split; [reflexivity |]. split; [reflexivity |].
  split; [reflexivity |]. split; [reflexivity |].
  split.
  { right. exists "Unable to find a signing key that matches 'eu-1'",
                  Fixture.euKey.
    split; [reflexivity | split; reflexivity]. }
  split; [reflexivity |]. split; [reflexivity |]. split; [reflexivity |].
  split; [left; reflexivity |].
  split.
  { right. exists 2000. split; [reflexivity | unfold Fixture.clock; lia]. }
  exists Fixture.euIssuer. split; [reflexivity |].
  right; right; left; reflexivity.
Defined.

Lemma refusal_log_witness :
  Server.credentialSupplied (Some "Bearer us.stale.US-PEM") = true
  /\ exists message before,
       Server.invalidToken "jwt expired" = Server.invalidToken message
       /\ trace (Fixture.authenticate (Some "Bearer us.stale.US-PEM"))
          = (before
             ++ [Server.ConsoleError
                   ("Token verification failed: " ++ message)])%list
       /\ (filter Observe.isConsoleError before = []
           \/ exists e,
                message = "error in secret or public key callback: " ++ e
                /\ filter Observe.isConsoleError before
                   = [Server.ConsoleError
                        ("Signing key not found in either JWKS endpoint: "
                         ++ e)]).
Proof.
  split; [reflexivity |].
  apply (proj2 (proj2 (refusals_are_logged_with_their_message
                         Server.defaultConfig Fixture.localJwks
                         Fixture.crossJwks Fixture.decode Fixture.jws_verify
                         Fixture.clock (Some "Bearer us.stale.US-PEM")))
               401 (Server.invalidToken "jwt expired")).
  - reflexivity.
  - reflexivity.
Defined.

Lemma protected_route_witness :
  result (Fixture.app (Fixture.get "/api/data" None
                                   (Some "Bearer eu.fresh.EU-PEM")))
  = Server.Data (Fixture.claims Fixture.euIssuer 2000)
  /\ result (Fixture.authenticate (Some "Bearer eu.fresh.EU-PEM"))
     = Server.Next (Fixture.claims Fixture.euIssuer 2000).
Proof.
  assert (H : result (Fixture.app (Fixture.get "/api/data" None
                                     (Some "Bearer eu.fresh.EU-PEM")))
              = Server.Data (Fixture.claims Fixture.euIssuer 2000))
    by reflexivity.
  split; [exact H |].
  apply (proj1 (protected_routes_serve_authenticated_claims_only
                  Server.defaultConfig Fixture.localJwks Fixture.crossJwks
                  Fixture.decode Fixture.jws_verify Fixture.clock
                  (Fixture.get "/api/data" None
                               (Some "Bearer eu.fresh.EU-PEM")))
               (Fixture.claims Fixture.euIssuer 2000)).
  right. exact H.
Defined.

Lemma identity_work_witness :
  filter Observe.isIdentityWork
         (trace (Fixture.app (Fixture.get "/API/UserInfo/" None
                                          (Some "Bearer zz.fresh.ZZ-PEM"))))
  <> []
  /\ Server.matchesRoute "/api/userinfo" "/API/UserInfo/" = true
  /\ Server.bodyError (Fixture.get "/API/UserInfo/" None
                                   (Some "Bearer zz.fresh.ZZ-PEM")) = None
  /\ Server.credentialSupplied (Some "Bearer zz.fresh.ZZ-PEM") = true.
Proof.
  assert (H : filter Observe.isIdentityWork
                (trace (Fixture.app (Fixture.get "/API/UserInfo/" None
                                       (Some "Bearer zz.fresh.ZZ-PEM"))))
              <> []) by (vm_compute; discriminate).
  split; [exact H |]. split; [reflexivity |]. split; [reflexivity |].
  apply (only_protected_routes_do_identity_work
           Server.defaultConfig Fixture.localJwks Fixture.crossJwks
           Fixture.decode Fixture.jws_verify Fixture.clock
           (Fixture.get "/API/UserInfo/" None
                        (Some "Bearer zz.fresh.ZZ-PEM")) H).
Defined.

Lemma email_pattern_witness :
  Js.isAscii "a.b@c-d.example.org" = true
  /\ RegExp.test Landing.emailPattern "a.b@c-d.example.org" = true
  /\ exists l a b,
       "a.b@c-d.example.org" = l ++ "@" ++ a ++ "." ++ b
       /\ Landing.addressPart l
       /\ Landing.addressPart a
       /\ Landing.addressPart b.
Proof.
  split; [reflexivity | split; [reflexivity |]].
  apply (proj1 (email_pattern_passes_exactly_addresses
                  "a.b@c-d.example.org" eq_refl)).
  reflexivity.
Defined.
